(** * Retrieval, routing and correction loop of the database knowledge base

    Shallow embedding of the Python sources
    - [src/src/advanced_retrieval/retrieval_techniques.py] (class [AdvancedRetrieval]),
    - [src/app.py] ([classify_query_and_get_targets], [multi_kb_query]),
    - [src/src/training/feedback_processor.py] ([FeedbackProcessor]).

    Python [str] values are modelled as Rocq [string]s whose characters are the
    code points U+0000..U+00FF; [bytes] as [list Z] with every element in 0..255.
    Floating point scores are modelled as rationals [Q] (the provider returns
    finite scores; only [>] and sorting are used on them). *)

From Stdlib Require Import String Ascii ZArith List QArith Lia Bool.
Import ListNotations.
Open Scope string_scope.
Open Scope Z_scope.

(* ------------------------------------------------------------------ *)
(** ** Python string primitives *)

Module Py.

(** Code point of a character. *)
Definition ord (c : ascii) : Z := Z.of_nat (nat_of_ascii c).
Definition chr (n : Z) : ascii := ascii_of_nat (Z.to_nat n).

(** [str.encode()] (UTF-8) of a string whose code points are below 256. *)
Fixpoint encode (s : string) : list Z :=
  match s with
  | EmptyString => []
  | String c rest =>
      let n := ord c in
      if n <? 128 then n :: encode rest
      else Z.lor 192 (Z.shiftr n 6) :: Z.lor 128 (Z.land n 63) :: encode rest
  end.

(** [str.lower()] on code points below 256: ASCII and Latin-1 capitals
    (U+00C0..U+00DE except U+00D7) move down by 32. *)
Definition lower_char (c : ascii) : ascii :=
  let n := ord c in
  if ((65 <=? n) && (n <=? 90)) || ((192 <=? n) && (n <=? 222) && negb (n =? 215))
  then chr (n + 32) else c.

Fixpoint lower (s : string) : string :=
  match s with
  | EmptyString => EmptyString
  | String c rest => String (lower_char c) (lower rest)
  end.

(** [str.title()] on code points below 256. A character after a cased one
    is lowered ([lower_char]); any other character is title-cased: ASCII and
    Latin-1 small letters move up by 32 and U+00DF becomes "Ss". The cased
    characters are the letters of both ranges and U+00AA, U+00B5, U+00BA.
    Python title-cases U+00B5 to U+039C and U+00FF to U+0178, which are not
    modelled code points: there [title] keeps the character, and
    [title_fits] tells the strings whose title case stays below 256. *)
Definition is_cased (c : ascii) : bool :=
  let n := ord c in
  ((65 <=? n) && (n <=? 90)) || ((97 <=? n) && (n <=? 122)) ||
  (n =? 170) || (n =? 181) || (n =? 186) || ((192 <=? n) && negb (n =? 215) && negb (n =? 247)).

Definition title_char (c : ascii) : string :=
  let n := ord c in
  if ((97 <=? n) && (n <=? 122)) || ((224 <=? n) && (n <=? 254) && negb (n =? 247))
  then String (chr (n - 32)) EmptyString
  else if n =? 223 then "Ss" else String c EmptyString.

Fixpoint title_from (prev_cased : bool) (s : string) : string :=
  match s with
  | EmptyString => EmptyString
  | String c rest =>
      (if prev_cased then String (lower_char c) EmptyString else title_char c) ++
      title_from (is_cased c) rest
  end.

Definition title (s : string) : string := title_from false s.

Fixpoint title_fits_from (prev_cased : bool) (s : string) : bool :=
  match s with
  | EmptyString => true
  | String c rest =>
      (prev_cased || negb ((ord c =? 181) || (ord c =? 255))) && title_fits_from (is_cased c) rest
  end.

Definition title_fits (s : string) : bool := title_fits_from false s.

(** [str.isspace()] for one code point below 256. *)
Definition is_space (c : ascii) : bool :=
  let n := ord c in
  ((9 <=? n) && (n <=? 13)) || ((28 <=? n) && (n <=? 32)) || (n =? 133) || (n =? 160).

Fixpoint lstrip (s : string) : string :=
  match s with
  | EmptyString => EmptyString
  | String c rest => if is_space c then lstrip rest else s
  end.

Fixpoint rev_string (s : string) : string :=
  match s with
  | EmptyString => EmptyString
  | String c rest => rev_string rest ++ String c EmptyString
  end.

(** [str.strip()]. *)
Definition strip (s : string) : string := rev_string (lstrip (rev_string (lstrip s))).

(** [s[:n]] for [n >= 0]. *)
Definition take (n : nat) (s : string) : string := substring 0 n s.

(** [needle in haystack]. *)
Fixpoint contains (needle hay : string) : bool :=
  if prefix needle hay then true
  else match hay with
       | EmptyString => false
       | String _ rest => contains needle rest
       end.

(** [hay.split(sep)] for a one-character separator. *)
Fixpoint split_char (sep : ascii) (hay : string) : list string :=
  match hay with
  | EmptyString => [EmptyString]
  | String c rest =>
      if Ascii.eqb c sep then EmptyString :: split_char sep rest
      else match split_char sep rest with
           | w :: ws => String c w :: ws
           | [] => [String c EmptyString]
           end
  end.

(** [sep.join(parts)]. *)
Fixpoint join (sep : string) (parts : list string) : string :=
  match parts with
  | [] => EmptyString
  | [p] => p
  | p :: ps => p ++ sep ++ join sep ps
  end.

(** [s.replace(old, new)] with a non-empty [old]: left to right, non-overlapping. *)
Fixpoint replace_fuel (fuel : nat) (old new s : string) : string :=
  match fuel with
  | O => s
  | S f =>
      if prefix old s then new ++ replace_fuel f old new (substring (String.length old) (String.length s) s)
      else match s with
           | EmptyString => EmptyString
           | String c rest => String c (replace_fuel f old new rest)
           end
  end.

Definition replace (old new s : string) : string := replace_fuel (S (String.length s)) old new s.

(** [str(n)] for an integer. *)
Fixpoint digits_of (fuel : nat) (n : Z) (acc : string) : string :=
  match fuel with
  | O => acc
  | S f =>
      let acc' := String (chr (48 + n mod 10)) acc in
      if n <? 10 then acc' else digits_of f (n / 10) acc'
  end.

Definition str_Z (n : Z) : string :=
  if n <? 0 then "-" ++ digits_of (Z.to_nat (Z.log2 (- n) + 1)) (- n) EmptyString
  else digits_of (Z.to_nat (Z.log2 n + 1)) n EmptyString.

(** [l[:n]] on a list, for any integer [n] (a negative bound counts from the end). *)
Definition list_take {A} (n : Z) (l : list A) : list A :=
  if 0 <=? n then firstn (Z.to_nat n) l
  else firstn (Z.to_nat (Z.of_nat (List.length l) + n)) l.

End Py.

(* ------------------------------------------------------------------ *)
(** ** [hashlib.md5(data).hexdigest()] *)

Module MD5.

Definition mask32 : Z := 4294967295.
Definition add32 (a b : Z) : Z := Z.land (a + b) mask32.
Definition not32 (a : Z) : Z := Z.lxor a mask32.
Definition rotl32 (x : Z) (s : Z) : Z :=
  Z.land (Z.lor (Z.shiftl x s) (Z.shiftr x (32 - s))) mask32.

Definition K : list Z :=
  [ 3614090360; 3905402710; 606105819; 3250441966; 4118548399; 1200080426;
    2821735955; 4249261313; 1770035416; 2336552879; 4294925233; 2304563134;
    1804603682; 4254626195; 2792965006; 1236535329; 4129170786; 3225465664;
    643717713; 3921069994; 3593408605; 38016083; 3634488961; 3889429448;
    568446438; 3275163606; 4107603335; 1163531501; 2850285829; 4243563512;
    1735328473; 2368359562; 4294588738; 2272392833; 1839030562; 4259657740;
    2763975236; 1272893353; 4139469664; 3200236656; 681279174; 3936430074;
    3572445317; 76029189; 3654602809; 3873151461; 530742520; 3299628645;
    4096336452; 1126891415; 2878612391; 4237533241; 1700485571; 2399980690;
    4293915773; 2240044497; 1873313359; 4264355552; 2734768916; 1309151649;
    4149444226; 3174756917; 718787259; 3951481745 ].

Definition S_shift : list Z :=
  [7;12;17;22;7;12;17;22;7;12;17;22;7;12;17;22;
   5;9;14;20;5;9;14;20;5;9;14;20;5;9;14;20;
   4;11;16;23;4;11;16;23;4;11;16;23;4;11;16;23;
   6;10;15;21;6;10;15;21;6;10;15;21;6;10;15;21].

(** Little-endian 64-bit length and 32-bit word helpers. *)
Definition le_bytes (n : nat) (x : Z) : list Z :=
  map (fun i => Z.land (Z.shiftr x (8 * Z.of_nat i)) 255) (seq 0 n).

Definition pad (msg : list Z) : list Z :=
  let len := List.length msg in
  let zeros := ((55 + 64 * 64 - len mod 64) mod 64)%nat in
  (msg ++ [128] ++ repeat 0 zeros ++ le_bytes 8 (8 * Z.of_nat len))%list.

Fixpoint words (b : list Z) : list Z :=
  match b with
  | b0 :: b1 :: b2 :: b3 :: rest =>
      (b0 + Z.shiftl b1 8 + Z.shiftl b2 16 + Z.shiftl b3 24) :: words rest
  | _ => []
  end.

Definition round (M : list Z) (st : Z * Z * Z * Z) (i : nat) : Z * Z * Z * Z :=
  let '(a, b, c, d) := st in
  let '(f, g) :=
    if (i <? 16)%nat then (Z.lor (Z.land b c) (Z.land (not32 b) d), i)
    else if (i <? 32)%nat then (Z.lor (Z.land d b) (Z.land (not32 d) c), (5 * i + 1) mod 16)%nat
    else if (i <? 48)%nat then (Z.lxor b (Z.lxor c d), (3 * i + 5) mod 16)%nat
    else (Z.lxor c (Z.lor b (not32 d)), (7 * i) mod 16)%nat in
  let f := add32 (add32 (add32 f a) (nth i K 0)) (nth g M 0) in
  (d, add32 b (rotl32 f (nth i S_shift 0)), b, c).

Definition block (st : Z * Z * Z * Z) (M : list Z) : Z * Z * Z * Z :=
  let '(a0, b0, c0, d0) := st in
  let '(a, b, c, d) := fold_left (round M) (seq 0 64) st in
  (add32 a0 a, add32 b0 b, add32 c0 c, add32 d0 d).

Fixpoint blocks (fuel : nat) (w : list Z) : list (list Z) :=
  match fuel with
  | O => []
  | S f => match w with [] => [] | _ => firstn 16 w :: blocks f (skipn 16 w) end
  end.

Definition digest (msg : list Z) : list Z :=
  let w := words (pad msg) in
  let '(a, b, c, d) :=
    fold_left block (blocks (List.length w) w)
      (1732584193, 4023233417, 2562383102, 271733878) in
  (le_bytes 4 a ++ le_bytes 4 b ++ le_bytes 4 c ++ le_bytes 4 d)%list.

Definition hex_digit (n : Z) : ascii :=
  if n <? 10 then Py.chr (48 + n) else Py.chr (87 + n).

Fixpoint hex (b : list Z) : string :=
  match b with
  | [] => EmptyString
  | x :: rest => String (hex_digit (x / 16)) (String (hex_digit (x mod 16)) (hex rest))
  end.

(** [hashlib.md5(data).hexdigest()]. *)
Definition hexdigest (data : list Z) : string := hex (digest data).

End MD5.

Example md5_empty : MD5.hexdigest [] = "d41d8cd98f00b204e9800998ecf8427e".
Proof. vm_compute. reflexivity. Qed.

Example md5_a : MD5.hexdigest (Py.encode "a") = "0cc175b9c0f1b6a831c399e269772661".
Proof. vm_compute. reflexivity. Qed.

Example md5_fox :
  MD5.hexdigest (Py.encode "The quick brown fox jumps over the lazy dog")
  = "9e107d9d372bb6826bd81d3542a419d6".
Proof. vm_compute. reflexivity. Qed.

Example md5_two_blocks :
  MD5.hexdigest (Py.encode
    "12345678901234567890123456789012345678901234567890123456789012345678901234567890")
  = "57edf4a22be3c955ac49da2e2107b67a".
Proof. vm_compute. reflexivity. Qed.

Example title_latin1 :
  Py.title ("documentaci" ++ String (ascii_of_nat 243) "n " ++ String (ascii_of_nat 223) "a x1y") =
  "Documentaci" ++ String (ascii_of_nat 243) "n Ssa X1Y".
Proof. vm_compute. reflexivity. Qed.

Example str_Z_samples : Py.str_Z 0 = "0" /\ Py.str_Z 8 = "8" /\ Py.str_Z 305 = "305"
  /\ Py.str_Z (-12) = "-12".
Proof. vm_compute. repeat split. Qed.

(* ------------------------------------------------------------------ *)
(** ** Retrieved contexts, results and the cache *)

Definition nl : string := String (ascii_of_nat 10) EmptyString.

(** One entry of the provider's [retrievalResults]; a missing key is [None]. *)
Record item := mkItem {
  item_text : option string;   (* item['content']['text'] *)
  item_uri : option string;    (* item['location']['s3Location']['uri'] *)
  item_score : option Q        (* item['score'] *)
}.

(** A context dict: ['content'], ['source'], ['content_sample'], ['score'] and,
    for expansion and relationship contexts, ['from_query']. *)
Record context := mkContext {
  content : string;
  source : string;
  content_sample : string;
  score : Q;
  from_query : option string
}.

Definition context_of_item (from : option string) (it : item) : context :=
  let text := match item_text it with Some t => t | None => "" end in
  {| content := text;
     source := match item_uri it with Some u => u | None => "" end;
     content_sample := if String.eqb text "" then "" else Py.take 500 text ++ "...";
     score := match item_score it with Some s => s | None => 0%Q end;
     from_query := from |}.

(** A result dict; keys a strategy does not set are [None].
    [query_text] holds ['table_name'] for relationship results. *)
Record result := mkResult {
  query_text : string;
  retrieval_method : string;
  error : option string;
  contexts : list context;
  thinking_process : option string;
  hypothetical_document : option string;
  relationship_analysis : option string
}.

Record entry := mkEntry { e_result : result; timestamp : Q }.

(** [self.cache_ttl]. *)
Definition cache_ttl : Q := 3600.

(** Python dict lookup and assignment on an association list
    (assignment keeps the position of an existing key, appends a new one). *)
Fixpoint dict_get {V} (k : string) (d : list (string * V)) : option V :=
  match d with
  | [] => None
  | (k', v) :: rest => if String.eqb k k' then Some v else dict_get k rest
  end.

Fixpoint dict_set {V} (k : string) (v : V) (d : list (string * V)) : list (string * V) :=
  match d with
  | [] => [(k, v)]
  | (k', v') :: rest => if String.eqb k k' then (k', v) :: rest else (k', v') :: dict_set k v rest
  end.

(** [generate_cache_key(query_text, num_results, **kwargs)] with string-valued kwargs. *)
Definition generate_cache_key (query_text : string) (num_results : Z)
    (kwargs : list (string * string)) : string :=
  let key_parts := app [query_text; Py.str_Z num_results]
                   (map (fun kv => fst kv ++ ":" ++ snd kv) kwargs) in
  MD5.hexdigest (Py.encode (Py.join "::" key_parts)).

(* ------------------------------------------------------------------ *)
(** ** Deduplication and ranking (the aggregation step) *)

Definition qgt (a b : Q) : bool := negb (Qle_bool a b).

(** [hashlib.md5(context['content'].encode()).hexdigest()]. *)
Definition content_hash (c : context) : string := MD5.hexdigest (Py.encode (content c)).

Section Dedup.
Variable key : context -> string.

(** One iteration of
    [if h not in unique_contexts or context['score'] > unique_contexts[h]['score']:
         unique_contexts[h] = context]. *)
Definition dedup_step (u : list (string * context)) (c : context) : list (string * context) :=
  let h := key c in
  match dict_get h u with
  | None => dict_set h c u
  | Some old => if qgt (score c) (score old) then dict_set h c u else u
  end.

Definition unique_contexts (l : list context) : list (string * context) :=
  fold_left dedup_step l [].

End Dedup.

(** [sorted(xs, key=lambda x: x['score'], reverse=True)]: stable, descending. *)
Fixpoint insert_desc (x : context) (l : list context) : list context :=
  match l with
  | [] => [x]
  | y :: t => if qgt (score y) (score x) then y :: insert_desc x t else x :: y :: t
  end.

Definition sort_desc (l : list context) : list context := fold_right insert_desc [] l.

(** The deduplicate / sort / truncate block shared by [query_expansion],
    [multi_strategy_retrieval] and [relationship_retrieval]. *)
Definition dedup_sort_take (num_results : Z) (all_contexts : list context) : list context :=
  Py.list_take num_results (sort_desc (map snd (unique_contexts content_hash all_contexts))).

(* ------------------------------------------------------------------ *)
(** ** External collaborators and the object state *)

(** The environment answers the [n]-th call of each kind: the knowledge base
    [retrieve] (query text, [numberOfResults]), the model [invoke_model]
    (prompt, answering the extracted text), and [time.time()].
    [inl msg] stands for a raised exception whose [str(e)] is [msg]. *)
Record Env := mkEnv {
  kb_retrieve : nat -> string -> Z -> string + list item;
  model_invoke : nat -> string -> string + string;
  clock : nat -> Q
}.

(** [self.cache] and the call history of the collaborators. *)
Record St := mkSt {
  cache : list (string * entry);
  retrieve_log : list (string * Z);
  invoke_log : list string;
  ticks : nat
}.

(** State and exception monad: a raised exception keeps the effects done so far. *)
Definition M (A : Type) : Type := St -> (string + A) * St.

Definition ret {A} (a : A) : M A := fun st => (inr a, st).
Definition raise {A} (e : string) : M A := fun st => (inl e, st).
Definition bind {A B} (m : M A) (k : A -> M B) : M B :=
  fun st => match m st with
            | (inl e, st') => (inl e, st')
            | (inr a, st') => k a st'
            end.
(** [try: m except Exception as e: h(str(e))]. *)
Definition catch {A} (m : M A) (h : string -> M A) : M A :=
  fun st => match m st with
            | (inl e, st') => h e st'
            | (inr a, st') => (inr a, st')
            end.

Notation "x <- m ;; k" := (bind m (fun x => k)) (at level 61, m at next level, right associativity).

Section Object.
Variable env : Env.

Definition time_time : M Q :=
  fun st => (inr (clock env (ticks st)),
             {| cache := cache st; retrieve_log := retrieve_log st;
                invoke_log := invoke_log st; ticks := S (ticks st) |}).

(** [self.kb_client.retrieve(...)]['retrievalResults'] *)
Definition retrieve (text : string) (n : Z) : M (list item) :=
  fun st =>
    let st' := {| cache := cache st; retrieve_log := retrieve_log st ++ [(text, n)];
                  invoke_log := invoke_log st; ticks := ticks st |} in
    match kb_retrieve env (List.length (retrieve_log st)) text n with
    | inl e => (inl e, st')
    | inr items => (inr items, st')
    end.

(** [self.bedrock_client.invoke_model(...)] followed by the extraction of
    [response_body['content'][0]['text']]. *)
Definition invoke_model (prompt : string) : M string :=
  fun st =>
    let st' := {| cache := cache st; retrieve_log := retrieve_log st;
                  invoke_log := invoke_log st ++ [prompt]; ticks := ticks st |} in
    match model_invoke env (List.length (invoke_log st)) prompt with
    | inl e => (inl e, st')
    | inr text => (inr text, st')
    end.

(** [cache_key in self.cache and time.time() - self.cache[cache_key]['timestamp'] < self.cache_ttl]
    (the clock is read only when the key is present). *)
Definition cache_lookup (key : string) : M (option result) :=
  fun st =>
    match dict_get key (cache st) with
    | None => (inr None, st)
    | Some e =>
        (now <- time_time ;;
         ret (if qgt cache_ttl (now - timestamp e) then Some (e_result e) else None)) st
    end.

(** [self.cache[cache_key] = {'result': result, 'timestamp': time.time()}] *)
Definition cache_store (key : string) (r : result) : M unit :=
  now <- time_time ;;
  fun st => (inr tt, {| cache := dict_set key {| e_result := r; timestamp := now |} (cache st);
                        retrieve_log := retrieve_log st; invoke_log := invoke_log st;
                        ticks := ticks st |}).


(* ------------------------------------------------------------------ *)
(** ** Strategy executors *)

(** [standard_query(query_text, num_results=5)] *)
Definition mock_result (query_text e : string) : result :=
  {| query_text := query_text;
     retrieval_method := "standard (mock fallback)";
     error := Some e;
     contexts :=
       [ {| content := "This is a mock response. The query was: " ++ query_text ++
                       ". There was an error connecting to the knowledge base: " ++ e;
            source := "mock-source";
            content_sample := "This is a mock response. The query was: " ++ query_text ++ "...";
            score := 1%Q;
            from_query := None |} ];
     thinking_process := None; hypothetical_document := None; relationship_analysis := None |}.

Definition standard_result (query_text : string) (items : list item) : result :=
  {| query_text := query_text; retrieval_method := "standard"; error := None;
     contexts := map (context_of_item None) items;
     thinking_process := None; hypothetical_document := None; relationship_analysis := None |}.

Definition standard_query (query_text : string) (num_results : Z) : M result :=
  let cache_key := generate_cache_key query_text num_results [("method", "standard")] in
  hit <- cache_lookup cache_key ;;
  match hit with
  | Some r => ret r
  | None =>
      catch
        (items <- retrieve query_text num_results ;;
         let r := standard_result query_text items in
         _ <- cache_store cache_key r ;;
         ret r)
        (fun e => ret (mock_result query_text e))
  end.

(** [generate_expanded_queries(query_text)] *)
Definition expansion_prompt (query_text : string) : string :=
  "Please generate 3-5 semantically diverse variations of this database query to improve retrieval." ++ nl ++
  "The variations should capture different ways of expressing the same information need, using different terms," ++ nl ++
  "structures, or perspectives. Focus on database terminology, SQL constructs, and schema concepts." ++ nl ++ nl ++
  "QUERY: " ++ query_text ++ nl ++ nl ++
  "Provide ONLY the query variations as plain text, one per line. No explanations or additional text.".

Definition generate_expanded_queries (query_text : string) : M (list string) :=
  catch
    (text <- invoke_model (expansion_prompt query_text) ;;
     let queries := filter (fun q => negb (String.eqb q ""))
                      (map Py.strip (Py.split_char (ascii_of_nat 10) text)) in
     ret (if existsb (String.eqb query_text) queries then queries
          else app queries [query_text]))
    (fun _ => ret [query_text]).

(** The per-query retrieval loop: [thinking_process] grows before each call,
    each call's contexts are tagged with the query ([from_query]). *)
Fixpoint retrieve_each (i : nat) (qs : list string) (n : Z)
    (all_contexts : list context) (thinking : string) : M (list context * string) :=
  match qs with
  | [] => ret (all_contexts, thinking)
  | q :: rest =>
      let thinking := thinking ++ Py.str_Z (Z.of_nat (S i)) ++ ". " ++ q ++ nl in
      items <- retrieve q n ;;
      retrieve_each (S i) rest n (app all_contexts (map (context_of_item (Some q)) items)) thinking
  end.

Definition error_result (query_text method e : string) : result :=
  {| query_text := query_text; retrieval_method := method; error := Some e; contexts := [];
     thinking_process := None; hypothetical_document := None; relationship_analysis := None |}.

Definition dedup_summary (all_contexts : list context) (num_results : Z) : string :=
  let u := unique_contexts content_hash all_contexts in
  nl ++ "Retrieved " ++ Py.str_Z (Z.of_nat (List.length all_contexts)) ++
  " total contexts, deduplicated to " ++ Py.str_Z (Z.of_nat (List.length u)) ++
  " unique contexts." ++
  nl ++ "Selected top " ++ Py.str_Z (Z.of_nat (List.length (dedup_sort_take num_results all_contexts))) ++
  " contexts based on relevance score.".

(** [query_expansion(query_text, num_results=5)] *)
Definition query_expansion (query_text : string) (num_results : Z) : M result :=
  let cache_key := generate_cache_key query_text num_results [("method", "expansion")] in
  hit <- cache_lookup cache_key ;;
  match hit with
  | Some r => ret r
  | None =>
      catch
        (expanded_queries <- generate_expanded_queries query_text ;;
         acc <- retrieve_each 0 expanded_queries num_results []
                  ("Original query: " ++ query_text ++ nl ++ nl ++ "Expanded queries:" ++ nl) ;;
         let (all_contexts, thinking) := acc in
         let r := {| query_text := query_text; retrieval_method := "query_expansion"; error := None;
                     contexts := dedup_sort_take num_results all_contexts;
                     thinking_process := Some (thinking ++ dedup_summary all_contexts num_results);
                     hypothetical_document := None; relationship_analysis := None |} in
         _ <- cache_store cache_key r ;;
         ret r)
        (fun e => ret (error_result query_text "query_expansion" e))
  end.

(** [generate_hypothetical_document(query_text)] *)
Definition hyde_prompt (query_text : string) : string :=
  "Create a hypothetical, ideal document that would perfectly answer this database-related query:" ++ nl ++ nl ++
  "QUERY: " ++ query_text ++ nl ++ nl ++
  "Create a technical document that contains information that would be the perfect match for this query." ++ nl ++
  "Include specific database concepts, table names, column names, relationships, and technical details that would be" ++ nl ++
  "relevant. Write as if this were an excerpt from an actual database documentation or SQL guide." ++ nl ++ nl ++
  "Respond with the hypothetical document only. Do not include any introductions or explanations.".

Definition generate_hypothetical_document (query_text : string) : M string :=
  catch (text <- invoke_model (hyde_prompt query_text) ;; ret (Py.strip text))
        (fun _ => ret query_text).

(** [hyde_retrieval(query_text, num_results=5)] *)
Definition hyde_retrieval (query_text : string) (num_results : Z) : M result :=
  let cache_key := generate_cache_key query_text num_results [("method", "hyde")] in
  hit <- cache_lookup cache_key ;;
  match hit with
  | Some r => ret r
  | None =>
      catch
        (hypothetical_doc <- generate_hypothetical_document query_text ;;
         items <- retrieve hypothetical_doc num_results ;;
         let cs := map (context_of_item None) items in
         let thinking :=
           "Original query: " ++ query_text ++ nl ++ nl ++
           "Generated hypothetical document to use for retrieval:" ++ nl ++ hypothetical_doc ++ nl ++
           nl ++ "Retrieved " ++ Py.str_Z (Z.of_nat (List.length cs)) ++
           " contexts using the hypothetical document." in
         let r := {| query_text := query_text; retrieval_method := "hyde"; error := None;
                     contexts := cs; thinking_process := Some thinking;
                     hypothetical_document := Some hypothetical_doc;
                     relationship_analysis := None |} in
         _ <- cache_store cache_key r ;;
         ret r)
        (fun e => ret (error_result query_text "hyde" e))
  end.


Definition count_line (r : result) : string :=
  "Retrieved " ++ Py.str_Z (Z.of_nat (List.length (contexts r))) ++ " results" ++ nl ++ nl.

Definition strategy_section (r : result) : string :=
  match thinking_process r with
  | Some t => t ++ nl ++ nl
  | None => count_line r
  end.

(** [multi_strategy_retrieval(query_text, num_results=8)] *)
Definition multi_strategy_retrieval (query_text : string) (num_results : Z) : M result :=
  let cache_key := generate_cache_key query_text num_results [("method", "multi")] in
  hit <- cache_lookup cache_key ;;
  match hit with
  | Some r => ret r
  | None =>
      catch
        (let results_per_method := Z.max 2 (num_results / 3) in
         standard_results <- standard_query query_text results_per_method ;;
         expansion_results <- query_expansion query_text results_per_method ;;
         hyde_results <- hyde_retrieval query_text results_per_method ;;
         let all_contexts := app (contexts standard_results)
                               (app (contexts expansion_results) (contexts hyde_results)) in
         let u := unique_contexts content_hash all_contexts in
         let sorted_contexts := dedup_sort_take num_results all_contexts in
         let thinking :=
           "# Multi-Strategy Retrieval Process" ++ nl ++ nl ++
           "Query: " ++ query_text ++ nl ++ nl ++
           "## Standard Retrieval" ++ nl ++ count_line standard_results ++
           "## Query Expansion" ++ nl ++ strategy_section expansion_results ++
           "## Hypothetical Document Embedding (HyDE)" ++ nl ++ strategy_section hyde_results ++
           "## Aggregation Results" ++ nl ++
           "Combined " ++ Py.str_Z (Z.of_nat (List.length all_contexts)) ++
           " total contexts from all methods" ++ nl ++
           "After deduplication: " ++ Py.str_Z (Z.of_nat (List.length u)) ++ " unique contexts" ++ nl ++
           "Final selection: " ++ Py.str_Z (Z.of_nat (List.length sorted_contexts)) ++
           " top contexts by relevance score" ++ nl in
         let r := {| query_text := query_text; retrieval_method := "multi_strategy"; error := None;
                     contexts := sorted_contexts; thinking_process := Some thinking;
                     hypothetical_document := None; relationship_analysis := None |} in
         _ <- cache_store cache_key r ;;
         ret r)
        (fun e => ret (error_result query_text "multi_strategy" e))
  end.

(** [generate_relationship_analysis(table_name, contexts)] *)
Definition relationship_prompt (table_name context_combined : string) : string :=
  "Based on the following database documentation excerpts, provide a comprehensive analysis of all relationships for the '" ++ table_name ++ "' table." ++ nl ++ nl ++
  "DOCUMENTATION EXCERPTS:" ++ nl ++ context_combined ++ nl ++ nl ++
  "Please provide a detailed explanation of:" ++ nl ++
  "1. Primary key(s) of the '" ++ table_name ++ "' table" ++ nl ++
  "2. Foreign keys in '" ++ table_name ++ "' that reference other tables" ++ nl ++
  "3. Tables that have foreign keys referencing '" ++ table_name ++ "'" ++ nl ++
  "4. The complete relationship graph of '" ++ table_name ++ "'" ++ nl ++
  "5. Important notes about these relationships (e.g., cascade delete rules, indexing considerations)" ++ nl ++ nl ++
  "Format your response as a technical but readable analysis with markdown formatting. Use bullet points and tables where appropriate." ++ nl ++
  "If the information is not available in the provided documentation, clearly indicate what's missing.".

Definition generate_relationship_analysis (table_name : string) (cs : list context) : M string :=
  let context_texts := filter (fun t => negb (String.eqb t "")) (map content cs) in
  let context_combined := Py.join (nl ++ nl ++ "---" ++ nl ++ nl) context_texts in
  catch (text <- invoke_model (relationship_prompt table_name context_combined) ;; ret (Py.strip text))
        (fun e => ret ("Error generating relationship analysis: " ++ e)).

(** The five relationship-probing queries of [relationship_retrieval]. *)
Definition relationship_queries (table_name : string) : list string :=
  [ "relationships of " ++ table_name ++ " table";
    table_name ++ " foreign keys";
    "tables that reference " ++ table_name;
    table_name ++ " primary key";
    table_name ++ " table schema relationships" ].

(** [relationship_retrieval(table_name, num_results=10)]; every call asks for
    [num_results // len(queries) + 1] results. *)
Definition relationship_retrieval (table_name : string) (num_results : Z) : M result :=
  let cache_key := generate_cache_key table_name num_results [("method", "relationship")] in
  hit <- cache_lookup cache_key ;;
  match hit with
  | Some r => ret r
  | None =>
      catch
        (let queries := relationship_queries table_name in
         acc <- retrieve_each 0 queries (num_results / Z.of_nat (List.length queries) + 1) []
                  ("Retrieving relationship information for table: " ++ table_name ++ nl ++ nl ++
                   "Generated specialized queries:" ++ nl) ;;
         let (all_contexts, thinking) := acc in
         let sorted_contexts := dedup_sort_take num_results all_contexts in
         analysis <- generate_relationship_analysis table_name sorted_contexts ;;
         let r := {| query_text := table_name; retrieval_method := "relationship"; error := None;
                     contexts := sorted_contexts;
                     thinking_process := Some (thinking ++ dedup_summary all_contexts num_results);
                     hypothetical_document := None; relationship_analysis := Some analysis |} in
         _ <- cache_store cache_key r ;;
         ret r)
        (fun e => ret (error_result table_name "relationship" e))
  end.

End Object.

(* ------------------------------------------------------------------ *)
(** ** Router: [classify_query_and_get_targets] (src/app.py) *)

Record ApplicationKBs := mkKBs {
  databaseKnowledgeBaseId : string;
  supportKnowledgeBaseId : option string;
  documentationKnowledgeBaseId : option string
}.

(** [QueryTarget(type=..., kbId=..., secondary=False)] *)
Record QueryTarget := mkTarget {
  type : string;
  kbId : string;
  secondary : option bool
}.

Definition target (ty id : string) : QueryTarget :=
  {| type := ty; kbId := id; secondary := Some false |}.

(** Python truthiness of an [Optional[str]] and the target it gives. *)
Definition truthy_target (ty : string) (o : option string) : option QueryTarget :=
  match o with
  | Some id => if String.eqb id "" then None else Some (target ty id)
  | None => None
  end.

Definition db_keywords : list string :=
  ["table"; "column"; "database"; "sql"; "query"; "schema"; "index"; "foreign key";
   "primary key"; "relationship"; "join"].
Definition support_keywords : list string :=
  ["error"; "issue"; "problem"; "troubleshoot"; "fix"; "bug"; "help"; "support"; "ticket"; "resolve"].
Definition doc_keywords : list string :=
  ["how to"; "guide"; "tutorial"; "documentation"; "manual"; "instruction"; "feature"; "functionality"].

(** [sum(1 for keyword in keywords if keyword in query_lower)] *)
Definition keyword_score (keywords : list string) (query_lower : string) : Z :=
  Z.of_nat (List.length (filter (fun kw => Py.contains kw query_lower) keywords)).

Definition classify_query_and_get_targets (query_text : string) (app_kbs : ApplicationKBs)
    (query_mode : string) : list QueryTarget :=
  let db_target := target "database" (databaseKnowledgeBaseId app_kbs) in
  if String.eqb query_mode "database" then [db_target]
  else if String.eqb query_mode "support" then
    match truthy_target "support" (supportKnowledgeBaseId app_kbs) with
    | Some t => [t] | None => [] end
  else if String.eqb query_mode "documentation" then
    match truthy_target "documentation" (documentationKnowledgeBaseId app_kbs) with
    | Some t => [t] | None => [] end
  else
    let query_lower := Py.lower query_text in
    let db_score := keyword_score db_keywords query_lower in
    let support_score := keyword_score support_keywords query_lower in
    let doc_score := keyword_score doc_keywords query_lower in
    if (support_score <=? db_score) && (doc_score <=? db_score) then [db_target]
    else match (if doc_score <? support_score
                then truthy_target "support" (supportKnowledgeBaseId app_kbs) else None) with
         | Some t => [t]
         | None =>
             match truthy_target "documentation" (documentationKnowledgeBaseId app_kbs) with
             | Some t => [t]
             | None => [db_target]
             end
         end.

(* ------------------------------------------------------------------ *)
(** ** Multi-source merger: [multi_kb_query] (src/app.py) *)

(** The dict returned by [advanced_rag_query]. *)
Record rag_answer := mkRag {
  r_answer : string;
  r_thinking : string;
  r_retrieved_contexts : list string
}.

(** A per-target result, after [source_type], [kb_id] and [is_secondary] are set. *)
Record kb_result := mkKbResult {
  answer : string;
  thinking : string;
  retrieved_contexts : list string;
  source_type : string;
  kb_id : string;
  is_secondary : bool
}.

Definition tag_result (t : QueryTarget) (r : rag_answer) : kb_result :=
  {| answer := r_answer r; thinking := r_thinking r; retrieved_contexts := r_retrieved_contexts r;
     source_type := type t; kb_id := kbId t;
     is_secondary := match secondary t with Some b => b | None => false end |}.

(** The per-target loop: a target whose client cannot be created, or whose
    query raises, is skipped ([query_kb] answers [None]). *)
Definition collect_results (query_kb : QueryTarget -> option rag_answer)
    (targets : list QueryTarget) : list kb_result :=
  flat_map (fun t => match query_kb t with Some r => [tag_result t r] | None => [] end) targets.

Definition secondary_section (s : kb_result) : string :=
  nl ++ "*From " ++ Py.title (source_type s) ++ ":* " ++ Py.take 200 (answer s) ++ "...".

Definition secondary_info (secondary_results : list kb_result) : string :=
  nl ++ nl ++ "**Related Information:**" ++ nl ++ String.concat "" (map secondary_section secondary_results).

Definition with_answer (r : kb_result) (a : string) : kb_result :=
  {| answer := a; thinking := thinking r; retrieved_contexts := retrieved_contexts r;
     source_type := source_type r; kb_id := kb_id r; is_secondary := is_secondary r |}.

(** The choice of [primary_result]; [None] when [results] is empty. *)
Definition merge_results (results : list kb_result) : option kb_result :=
  match results with
  | [] => None
  | [r] => Some r
  | r0 :: _ =>
      let primary_results := filter (fun r => negb (is_secondary r)) results in
      let secondary_results := filter is_secondary results in
      match primary_results with
      | p :: _ =>
          match secondary_results with
          | [] => Some p
          | _ => Some (with_answer p (answer p ++ secondary_info secondary_results))
          end
      | [] => Some r0
      end
  end.

Record APIResponse := mkResponse {
  resp_answer : string;
  resp_thinking : option string;
  resp_contexts : option (list string)
}.

(** [str(HTTPException(status_code, detail))], as Starlette prints it. *)
Definition http_exception_str (status_code : Z) (detail : string) : string :=
  Py.str_Z status_code ++ ": " ++ detail.

(** The [try] body of [multi_kb_query] once the targets are known;
    [inl (status_code, detail)] is a raised [HTTPException]. *)
Definition multi_kb_query_try (query_kb : QueryTarget -> option rag_answer)
    (include_thinking include_contexts : bool) (targets : list QueryTarget)
    : (Z * string) + APIResponse :=
  match targets with
  | [] => inl (400, "No knowledge base targets available for this query")
  | _ =>
      match merge_results (collect_results query_kb targets) with
      | None => inl (500, "No knowledge bases could be queried")
      | Some p =>
          inr {| resp_answer := answer p;
                 resp_thinking := if include_thinking && negb (String.eqb (thinking p) "")
                                  then Some (thinking p) else None;
                 resp_contexts := match retrieved_contexts p with
                                  | [] => None
                                  | cs => if include_contexts then Some cs else None
                                  end |}
      end
  end.

(** [multi_kb_query]: the outer [except Exception as e] turns every raised
    [HTTPException] into [HTTPException(status_code=500, detail=str(e))]. *)
Definition multi_kb_query (query_kb : QueryTarget -> option rag_answer)
    (include_thinking include_contexts : bool) (targets : list QueryTarget)
    : (Z * string) + APIResponse :=
  match multi_kb_query_try query_kb include_thinking include_contexts targets with
  | inl (status_code, detail) => inl (500, http_exception_str status_code detail)
  | inr resp => inr resp
  end.

(* ------------------------------------------------------------------ *)
(** ** Correction loop: [FeedbackProcessor] (src/src/training/feedback_processor.py) *)

Module Feedback.

(** A row of [query_feedback]. *)
Record feedback_row := mkFeedback {
  Id : Z;
  KnowledgeBaseId : string;
  CompanyId : Z;
  ProcessingStatus : string;
  FeedbackType : string;
  CreatedAt : Z;
  OriginalQuery : string;
  OriginalResponse : string;
  CorrectedResponse : string;
  FeedbackNotes : string;
  ProcessedBy : option string;
  ProcessedAt : option Z
}.

(** A row of [training_data]. *)
Record training_row := mkTraining {
  td_Id : Z;
  td_FeedbackId : Z;
  td_CompanyId : Z;
  td_KnowledgeBaseId : string;
  QueryPattern : string;
  CorrectResponse : string;
  IncorrectResponse : string;
  ImprovementNotes : string
}.

(** A row of [kb_improvement_log]. *)
Record log_row := mkLog {
  log_Id : Z;
  log_KnowledgeBaseId : string;
  log_CompanyId : Z;
  ImprovementType : string;
  Description : string;
  TrainingDataIds : list Z;
  ImplementationMethod : string;
  Status : string;
  IngestionJobId : option string
}.

(** The tables touched by the processor; [next_*] is the next [lastrowid]. *)
Record DB := mkDB {
  query_feedback : list feedback_row;
  training_data : list training_row;
  kb_improvement_log : list log_row;
  next_training_id : Z;
  next_log_id : Z
}.

Record process_result := mkProcessResult {
  status : string;
  processed : Z;
  training_data_ids : option (list Z)
}.

(** [ORDER BY CreatedAt ASC]; rows with equal [CreatedAt] are kept in table order. *)
Fixpoint insert_by_created (f : feedback_row) (l : list feedback_row) : list feedback_row :=
  match l with
  | [] => [f]
  | g :: t => if CreatedAt g <=? CreatedAt f then g :: insert_by_created f t else f :: g :: t
  end.

Definition select_pending (kb_id : string) (company_id : Z) (db : DB) : list feedback_row :=
  fold_right insert_by_created []
    (filter (fun f => String.eqb (KnowledgeBaseId f) kb_id && (CompanyId f =? company_id)
                      && String.eqb (ProcessingStatus f) "pending"
                      && String.eqb (FeedbackType f) "correction")
            (query_feedback db)).

(** [generalize_query_pattern] *)
Definition common_replacements : list (string * string) :=
  [("sales orders", "[SALES_ENTITY]"); ("customers", "[CUSTOMER_ENTITY]");
   ("products", "[PRODUCT_ENTITY]"); ("orders", "[ORDER_ENTITY]");
   ("payments", "[PAYMENT_ENTITY]")].

Definition generalize_query_pattern (original_query : string) : string :=
  fold_left (fun pattern tp => Py.replace (fst tp) (snd tp) pattern) common_replacements
    (Py.lower original_query).

(** [create_training_data]: inserts one row and answers its [lastrowid]. *)
Definition create_training_data (f : feedback_row) (db : DB) : Z * DB :=
  let id := next_training_id db in
  let row := {| td_Id := id; td_FeedbackId := Id f; td_CompanyId := CompanyId f;
                td_KnowledgeBaseId := KnowledgeBaseId f;
                QueryPattern := generalize_query_pattern (OriginalQuery f);
                CorrectResponse := CorrectedResponse f; IncorrectResponse := OriginalResponse f;
                ImprovementNotes := FeedbackNotes f |} in
  (id, {| query_feedback := query_feedback db; training_data := app (training_data db) [row];
          kb_improvement_log := kb_improvement_log db; next_training_id := id + 1;
          next_log_id := next_log_id db |}).

(** [UPDATE query_feedback SET ProcessingStatus = 'reviewed', ... WHERE Id = %s] *)
Definition mark_reviewed (now : Z) (fid : Z) (db : DB) : DB :=
  {| query_feedback :=
       map (fun f => if Id f =? fid then
                       {| Id := Id f; KnowledgeBaseId := KnowledgeBaseId f; CompanyId := CompanyId f;
                          ProcessingStatus := "reviewed"; FeedbackType := FeedbackType f;
                          CreatedAt := CreatedAt f; OriginalQuery := OriginalQuery f;
                          OriginalResponse := OriginalResponse f;
                          CorrectedResponse := CorrectedResponse f; FeedbackNotes := FeedbackNotes f;
                          ProcessedBy := Some "system"; ProcessedAt := Some now |}
                     else f) (query_feedback db);
     training_data := training_data db; kb_improvement_log := kb_improvement_log db;
     next_training_id := next_training_id db; next_log_id := next_log_id db |}.

(** How the [try] block of the [i]-th loop iteration ends: normally, or with
    an exception raised by the [INSERT INTO training_data] (which still
    consumed [consumed] auto-increment values and wrote no row), or by the
    [UPDATE query_feedback] (which changed no row); closing a cursor is
    taken not to raise. *)
Inductive row_outcome := RowOk | InsertRaises (consumed : nat) | UpdateRaises.

(** What the database and the clock do during one run: the outcome of each
    loop iteration, the value of [NOW()] in the [UPDATE] of each iteration,
    and [int(datetime.now().timestamp())] in
    [update_knowledge_base_with_corrections]. *)
Record run := mkRun {
  outcome : nat -> row_outcome;
  sql_now : nat -> Z;
  job_now : Z
}.

Definition skip_training_ids (k : nat) (db : DB) : DB :=
  {| query_feedback := query_feedback db; training_data := training_data db;
     kb_improvement_log := kb_improvement_log db;
     next_training_id := next_training_id db + Z.of_nat k; next_log_id := next_log_id db |}.

(** The loop over the pending rows from iteration [i]: ids of the created
    training rows; an iteration whose [try] block raises goes on with the
    next row ([except Exception: continue]), keeping what it already did. *)
Fixpoint process_each (rn : run) (i : nat) (pending : list feedback_row) (ids : list Z) (db : DB)
    : list Z * DB :=
  match pending with
  | [] => (ids, db)
  | f :: rest =>
      match outcome rn i with
      | InsertRaises k => process_each rn (S i) rest ids (skip_training_ids k db)
      | o =>
          let (tid, db1) := create_training_data f db in
          if tid =? 0 then process_each rn (S i) rest ids db1
          else
            let db2 := match o with
                       | RowOk => mark_reviewed (sql_now rn i) (Id f) db1
                       | _ => db1
                       end in
            process_each rn (S i) rest (app ids [tid]) db2
      end
  end.

(** [generate_corrected_documentation]: one document per selected training row;
    a document is (query_pattern, correct_sql, explanation). *)
Definition generate_corrected_documentation (ids : list Z) (db : DB)
    : list (string * string * string) :=
  map (fun d => (QueryPattern d, CorrectResponse d,
                 "Corrected based on user feedback: " ++ ImprovementNotes d))
      (filter (fun d => existsb (Z.eqb (td_Id d)) ids) (training_data db)).

Definition insert_log (row : log_row) (db : DB) : DB :=
  {| query_feedback := query_feedback db; training_data := training_data db;
     kb_improvement_log := app (kb_improvement_log db) [row];
     next_training_id := next_training_id db; next_log_id := next_log_id db + 1 |}.

Definition set_log_in_progress (lid : Z) (job : string) (db : DB) : DB :=
  {| query_feedback := query_feedback db; training_data := training_data db;
     kb_improvement_log :=
       map (fun l => if log_Id l =? lid then
                       {| log_Id := log_Id l; log_KnowledgeBaseId := log_KnowledgeBaseId l;
                          log_CompanyId := log_CompanyId l; ImprovementType := ImprovementType l;
                          Description := Description l; TrainingDataIds := TrainingDataIds l;
                          ImplementationMethod := ImplementationMethod l;
                          Status := "in_progress"; IngestionJobId := Some job |}
                     else l) (kb_improvement_log db);
     next_training_id := next_training_id db; next_log_id := next_log_id db |}.

(** [process_pending_feedback(kb_id, company_id, connection)] during the run [rn]. *)
Definition process_pending_feedback (kb_id : string) (company_id : Z) (rn : run) (db : DB)
    : process_result * DB :=
  let pending_feedback := select_pending kb_id company_id db in
  match pending_feedback with
  | [] => ({| status := "no_pending_feedback"; processed := 0; training_data_ids := None |}, db)
  | _ =>
      let (training_data_ids, db1) := process_each rn 0 pending_feedback [] db in
      let processed_count := Z.of_nat (List.length training_data_ids) in
      let db2 :=
        match training_data_ids with
        | [] => db1
        | _ =>
            let improvement_log_id := next_log_id db1 in
            let db_log :=
              insert_log {| log_Id := improvement_log_id; log_KnowledgeBaseId := kb_id;
                            log_CompanyId := company_id; ImprovementType := "content_update";
                            Description := "Processed " ++ Py.str_Z processed_count ++ " user corrections";
                            TrainingDataIds := training_data_ids;
                            ImplementationMethod := "ingestion_job"; Status := "planned";
                            IngestionJobId := None |} db1 in
            match generate_corrected_documentation training_data_ids db_log with
            | [] => db_log
            | _ =>
                let ingestion_job_id :=
                  "job-" ++ Py.str_Z improvement_log_id ++ "-" ++ Py.str_Z (job_now rn) in
                set_log_in_progress improvement_log_id ingestion_job_id db_log
            end
        end in
      ({| status := "success"; processed := processed_count;
          training_data_ids := Some training_data_ids |}, db2)
  end.

End Feedback.

(* ------------------------------------------------------------------ *)
(** ** Answer generation and the endpoints above it
       (src/src/advanced_retrieval/retrieval_techniques.py, src/app.py) *)

Section Answering.
Variable env : Env.

Definition dq : string := String (ascii_of_nat 34) EmptyString.

(** [get_relevant_corrections(query_text)]: the [try] body returns [""]. *)
Definition get_relevant_corrections (query_text : string) : string := "".

(** The prompt of [generate_answer_from_contexts]. *)
Definition answer_prompt (query_text combined_contexts : string) : string :=
  "You are a SQL query assistant. Based on the retrieved database documentation below, provide ONLY SQL statements that answer the user's query." ++ nl ++ nl ++
  "USER QUERY: " ++ query_text ++ nl ++ nl ++
  "RETRIEVED DOCUMENTATION:" ++ nl ++ combined_contexts ++ nl ++ nl ++
  "IMPORTANT INSTRUCTIONS:" ++ nl ++
  "1. Respond ONLY with SQL statements - no explanatory text" ++ nl ++
  "2. Use proper SQL syntax for the database system" ++ nl ++
  "3. Include table aliases for readability" ++ nl ++
  "4. Add appropriate WHERE clauses for filtering" ++ nl ++
  "5. Use meaningful column names in SELECT statements" ++ nl ++
  "6. If multiple queries are needed, separate them with semicolons" ++ nl ++
  "7. If user corrections are provided above, prioritize those over general documentation" ++ nl ++
  "8. If the query cannot be answered with available schema information, respond with: " ++
  dq ++ "-- Insufficient schema information to generate SQL" ++ dq ++ nl ++ nl ++
  "SQL Response:".

Definition no_context_answer (query_text : string) : string :=
  "I couldn't find relevant information in the database knowledge base for your query: '" ++
  query_text ++ "'. Please try rephrasing your question or check if the topic is covered in the documentation.".

(** [generate_answer_from_contexts(query_text, context_texts)] *)
Definition generate_answer_from_contexts (query_text : string) (context_texts : list string)
    : M string :=
  match context_texts with
  | [] => ret (no_context_answer query_text)
  | first :: _ =>
      let corrections_context := get_relevant_corrections query_text in
      let combined := Py.join (nl ++ nl ++ "---" ++ nl ++ nl) (firstn 10 context_texts) in
      let combined_contexts :=
        if String.eqb corrections_context "" then combined
        else combined ++ nl ++ nl ++ "--- USER CORRECTIONS ---" ++ nl ++ nl ++ corrections_context in
      catch
        (result <- invoke_model env (answer_prompt query_text combined_contexts) ;;
         ret (if String.eqb (Py.strip result) ""
              then "I found relevant documentation but couldn't generate a proper response. The retrieved information contains: " ++
                   Py.take 1000 combined_contexts ++ "..."
              else Py.strip result))
        (fun _ => ret ("Based on the database documentation, here's what I found for your query '" ++
                       query_text ++ "':" ++ nl ++ nl ++ Py.take 2000 first ++ "..."))
  end.

(** [advanced_rag_query(query_text, use_extended_thinking)]: the default
    [num_results = 8] of [multi_strategy_retrieval]. *)
Definition advanced_rag_query (query_text : string) (use_extended_thinking : bool) : M rag_answer :=
  result <- multi_strategy_retrieval env query_text 8 ;;
  let context_texts := map (fun c => Py.strip (content c))
                         (filter (fun c => negb (String.eqb (content c) "")) (contexts result)) in
  let thinking := match thinking_process result with Some t => t | None => "" end in
  answer <- generate_answer_from_contexts query_text context_texts ;;
  ret {| r_answer := answer; r_thinking := if use_extended_thinking then thinking else "";
         r_retrieved_contexts := context_texts |}.

(** The [response_data] built from an [advanced_rag_query] result. *)
Definition response_of (include_thinking include_contexts : bool) (result : rag_answer) : APIResponse :=
  {| resp_answer := r_answer result;
     resp_thinking := if include_thinking && negb (String.eqb (r_thinking result) "")
                      then Some (r_thinking result) else None;
     resp_contexts := match r_retrieved_contexts result with
                      | [] => None
                      | cs => if include_contexts then Some cs else None
                      end |}.

(** [query_knowledge_base] without [queryTargets], once [retrieval_client]
    exists; a raised exception ([inl]) is the HTTP 500 answer. *)
Definition query_knowledge_base (query_text : string)
    (extended_thinking include_thinking include_contexts : bool) : M APIResponse :=
  result <- advanced_rag_query query_text extended_thinking ;;
  ret (response_of include_thinking include_contexts result).

(** [query_database_relationships(table_name)]: the default [num_results = 10]. *)
Definition query_database_relationships (table_name : string) : M result :=
  relationship_retrieval env table_name 10.

(** [analyze_table_relationships]: a relationship result has no
    ['retrieved_contexts'] key, so [result.get('retrieved_contexts', [])] is [[]]. *)
Definition analyze_table_relationships (table_name : string)
    (include_thinking include_contexts : bool) : M APIResponse :=
  result <- query_database_relationships table_name ;;
  ret {| resp_answer := match relationship_analysis result with Some a => a | None => "" end;
         resp_thinking := match thinking_process result with
                          | Some t => if include_thinking && negb (String.eqb t "") then Some t else None
                          | None => None
                          end;
         resp_contexts := if include_contexts then Some [] else None |}.

(** The [/optimize] endpoint [optimize_sql_query(request)] of src/app.py. *)
Definition optimize_sql_query (sql_query : string) (include_thinking include_contexts : bool)
    : M APIResponse :=
  result <- advanced_rag_query ("How can I optimize this SQL query? " ++ sql_query) true ;;
  ret (response_of include_thinking include_contexts result).

End Answering.

(* ================================================================== *)
(** * Properties *)

From Stdlib Require Import Sorting.Sorted Sorting.Permutation.

(** ** Lemmas on dictionaries, deduplication and sorting *)

Lemma qgt_true (a b : Q) : qgt a b = true -> (b < a)%Q.
Proof.
  unfold qgt. intro H. apply Qnot_le_lt. intro Hle.
  apply Qle_bool_iff in Hle. rewrite Hle in H. discriminate.
Qed.

Lemma qgt_false (a b : Q) : qgt a b = false -> (a <= b)%Q.
Proof.
  unfold qgt. intro H. apply Qle_bool_iff. destruct (Qle_bool a b); [reflexivity | discriminate].
Qed.

Section Dict.
Context {V : Type}.

Lemma dict_get_set_eq (k : string) (v : V) (d : list (string * V)) :
  dict_get k (dict_set k v d) = Some v.
Proof.
  induction d as [| [k' v'] rest IH]; simpl.
  - rewrite String.eqb_refl. reflexivity.
  - destruct (String.eqb k k') eqn:E; simpl.
    + rewrite E. reflexivity.
    + rewrite E. exact IH.
Qed.

Lemma dict_get_set_neq (k k' : string) (v : V) (d : list (string * V)) :
  k <> k' -> dict_get k' (dict_set k v d) = dict_get k' d.
Proof.
  intro Hne. induction d as [| [k0 v0] rest IH]; simpl.
  - destruct (String.eqb k' k) eqn:E; [apply String.eqb_eq in E; congruence | reflexivity].
  - destruct (String.eqb k k0) eqn:E; simpl.
    + apply String.eqb_eq in E. subst k0.
      destruct (String.eqb k' k) eqn:E'; [apply String.eqb_eq in E'; congruence | reflexivity].
    + destruct (String.eqb k' k0); [reflexivity | exact IH].
Qed.

Lemma dict_get_none_notin (k : string) (d : list (string * V)) :
  dict_get k d = None -> ~ In k (map fst d).
Proof.
  induction d as [| [k0 v0] rest IH]; simpl; [tauto |].
  destruct (String.eqb k k0) eqn:E; [discriminate |].
  apply String.eqb_neq in E. intros H [H1 | H1]; [congruence | exact (IH H H1)].
Qed.

Lemma dict_get_in (k : string) (v : V) (d : list (string * V)) :
  dict_get k d = Some v -> In (k, v) d.
Proof.
  induction d as [| [k0 v0] rest IH]; simpl; [discriminate |].
  destruct (String.eqb k k0) eqn:E.
  - apply String.eqb_eq in E. intro H. inversion H. subst. left. reflexivity.
  - intro H. right. exact (IH H).
Qed.

Lemma dict_set_keys (k : string) (v : V) (d : list (string * V)) :
  map fst (dict_set k v d) =
  match dict_get k d with Some _ => map fst d | None => app (map fst d) [k] end.
Proof.
  induction d as [| [k0 v0] rest IH]; simpl; [reflexivity |].
  destruct (String.eqb k k0) eqn:E; simpl.
  - reflexivity.
  - rewrite IH. destruct (dict_get k rest); reflexivity.
Qed.

Lemma dict_set_in (k k' : string) (v v' : V) (d : list (string * V)) :
  In (k', v') (dict_set k v d) -> (k', v') = (k, v) \/ In (k', v') d.
Proof.
  induction d as [| [k0 v0] rest IH]; simpl.
  - intros [H | []]. left. congruence.
  - destruct (String.eqb k k0) eqn:E; simpl.
    + apply String.eqb_eq in E. subst k0. intros [H | H]; [left; congruence | right; right; exact H].
    + intros [H | H]; [right; left; exact H |].
      destruct (IH H) as [H1 | H1]; [left; exact H1 | right; right; exact H1].
Qed.

Lemma nodup_keys_filter_one (h : string) (d : list (string * V)) :
  NoDup (map fst d) -> In h (map fst d) ->
  List.length (filter (fun kv => String.eqb (fst kv) h) d) = 1%nat.
Proof.
  induction d as [| [k0 v0] rest IH]; simpl; [tauto |].
  intros Hnd Hin. inversion Hnd as [| ? ? Hnotin Hnd']. subst.
  destruct (String.eqb k0 h) eqn:E; simpl.
  - apply String.eqb_eq in E. subst k0.
    assert (Hz : filter (fun kv => String.eqb (fst kv) h) rest = []).
    { clear -Hnotin. induction rest as [| [k1 v1] r IH]; simpl in *; [reflexivity |].
      destruct (String.eqb k1 h) eqn:E1.
      - apply String.eqb_eq in E1. subst. exfalso. apply Hnotin. left. reflexivity.
      - apply IH. intro H. apply Hnotin. right. exact H. }
    rewrite Hz. reflexivity.
  - apply String.eqb_neq in E. destruct Hin as [Hin | Hin]; [congruence |]. exact (IH Hnd' Hin).
Qed.

End Dict.

Section DedupProofs.
Variable key : context -> string.

(** The invariant of [unique_contexts] after processing [seen]. *)
Definition dedup_inv (seen : list context) (u : list (string * context)) : Prop :=
  NoDup (map fst u) /\
  (forall k c, In (k, c) u -> key c = k /\ In c seen) /\
  (forall c, In c seen -> exists c', dict_get (key c) u = Some c' /\ (score c <= score c')%Q).

Lemma dedup_inv_nil : dedup_inv [] [].
Proof. split; [constructor | split; intros; simpl in *; contradiction]. Qed.

Lemma dedup_step_inv (seen : list context) (u : list (string * context)) (c : context) :
  dedup_inv seen u -> dedup_inv (app seen [c]) (dedup_step key u c).
Proof.
  intros [Hnd [Hk Hmax]]. unfold dedup_step.
  assert (Hsetinv : (forall c0, In c0 seen -> key c0 = key c ->
                       (score c0 <= score c)%Q) ->
                    dedup_inv (app seen [c]) (dict_set (key c) c u)).
  { intro Hle. split; [| split].
    - rewrite dict_set_keys. destruct (dict_get (key c) u) eqn:E; [exact Hnd |].
      apply NoDup_app; [exact Hnd | repeat constructor; simpl; tauto |].
      intros x Hx [Hy | []]. subst x. exact (dict_get_none_notin _ _ E Hx).
    - intros k c1 Hin. destruct (dict_set_in _ _ _ _ _ Hin) as [He | He].
      + inversion He. subst. split; [reflexivity | apply in_or_app; right; left; reflexivity].
      + destruct (Hk _ _ He) as [H1 H2]. split; [exact H1 | apply in_or_app; left; exact H2].
    - intros c1 Hin. apply in_app_or in Hin. destruct Hin as [Hin | [Hin | []]].
      + destruct (String.eqb (key c1) (key c)) eqn:E.
        * apply String.eqb_eq in E. rewrite E, dict_get_set_eq. exists c. split; [reflexivity |].
          exact (Hle _ Hin E).
        * apply String.eqb_neq in E. rewrite dict_get_set_neq by congruence. exact (Hmax _ Hin).
      + subst c1. exists c. rewrite dict_get_set_eq. split; [reflexivity | apply Qle_refl]. }
  destruct (dict_get (key c) u) as [old |] eqn:Eold.
  - destruct (qgt (score c) (score old)) eqn:Egt.
    + apply Hsetinv. intros c0 Hin0 Hk0.
      destruct (Hmax _ Hin0) as [c' [Hg Hs]]. rewrite Hk0, Eold in Hg. inversion Hg. subst c'.
      apply Qle_trans with (score old); [exact Hs | apply Qlt_le_weak, qgt_true, Egt].
    + split; [exact Hnd | split].
      * intros k c1 Hin. destruct (Hk _ _ Hin) as [H1 H2]. split; [exact H1 |].
        apply in_or_app; left; exact H2.
      * intros c1 Hin. apply in_app_or in Hin. destruct Hin as [Hin | [Hin | []]].
        -- exact (Hmax _ Hin).
        -- subst c1. exists old. split; [exact Eold | apply qgt_false, Egt].
  - apply Hsetinv. intros c0 Hin0 Hk0.
    destruct (Hmax _ Hin0) as [c' [Hg _]]. rewrite Hk0, Eold in Hg. discriminate.
Qed.

Lemma dedup_fold_inv (l seen : list context) (u : list (string * context)) :
  dedup_inv seen u -> dedup_inv (app seen l) (fold_left (dedup_step key) l u).
Proof.
  revert seen u. induction l as [| c rest IH]; intros seen u H; simpl.
  - rewrite app_nil_r. exact H.
  - replace (app seen (c :: rest)) with (app (app seen [c]) rest)
      by (rewrite <- app_assoc; reflexivity).
    apply IH. apply dedup_step_inv. exact H.
Qed.

Lemma unique_contexts_inv (l : list context) : dedup_inv l (unique_contexts key l).
Proof. exact (dedup_fold_inv l [] [] dedup_inv_nil). Qed.

(** Each fingerprint of the input has exactly one survivor, which has the
    highest score among the inputs with that fingerprint. *)
Lemma unique_contexts_survivor (l : list context) (c : context) :
  In c l ->
  List.length (filter (fun s => String.eqb (key s) (key c)) (map snd (unique_contexts key l))) = 1%nat /\
  exists s, In s (map snd (unique_contexts key l)) /\ key s = key c /\
    (forall c', In c' l -> key c' = key c -> (score c' <= score s)%Q).
Proof.
  intro Hin. destruct (unique_contexts_inv l) as [Hnd [Hk Hmax]].
  destruct (Hmax _ Hin) as [s [Hg Hs]].
  pose proof (dict_get_in _ _ _ Hg) as Hins.
  split.
  - rewrite <- (nodup_keys_filter_one (key c) (unique_contexts key l) Hnd)
      by (apply in_map_iff; exists (key c, s); split; [reflexivity | exact Hins]).
    assert (Hgen : forall d : list (string * context),
              (forall k c1, In (k, c1) d -> key c1 = k) ->
              filter (fun s0 => String.eqb (key s0) (key c)) (map snd d) =
              map snd (filter (fun kv => String.eqb (fst kv) (key c)) d)).
    { induction d as [| [k1 c1] r IH]; intro Hd; simpl; [reflexivity |].
      rewrite (Hd k1 c1 (or_introl eq_refl)).
      assert (Hd' : forall k c2, In (k, c2) r -> key c2 = k)
        by (intros k c2 H; apply Hd; right; exact H).
      destruct (String.eqb k1 (key c)); simpl; rewrite (IH Hd'); reflexivity. }
    rewrite Hgen by (intros k c1 H; exact (proj1 (Hk _ _ H))). apply length_map.
  - exists s. split; [apply in_map_iff; exists (key c, s); split; [reflexivity | exact Hins] |].
    split; [exact (proj1 (Hk _ _ Hins)) |].
    intros c' Hin' Hk'. destruct (Hmax _ Hin') as [s' [Hg' Hs']].
    rewrite Hk', Hg in Hg'. inversion Hg'. subst s'. exact Hs'.
Qed.

Lemma unique_contexts_from_input (l : list context) (s : context) :
  In s (map snd (unique_contexts key l)) -> In s l.
Proof.
  intro H. apply in_map_iff in H. destruct H as [[k c] [Hs Hin]]. simpl in Hs. subst c.
  destruct (unique_contexts_inv l) as [_ [Hk _]]. exact (proj2 (Hk _ _ Hin)).
Qed.

End DedupProofs.

Definition score_desc (a b : context) : Prop := (score b <= score a)%Q.

Lemma insert_desc_perm (x : context) (l : list context) : Permutation (insert_desc x l) (x :: l).
Proof.
  induction l as [| y t IH]; simpl; [reflexivity |].
  destruct (qgt (score y) (score x)).
  - eapply perm_trans; [apply perm_skip, IH | apply perm_swap].
  - reflexivity.
Qed.

Lemma sort_desc_perm (l : list context) : Permutation (sort_desc l) l.
Proof.
  induction l as [| x t IH]; simpl; [reflexivity |].
  eapply perm_trans; [apply insert_desc_perm | apply perm_skip, IH].
Qed.

Lemma insert_desc_hdrel (y x : context) (l : list context) :
  HdRel score_desc y l -> score_desc y x -> HdRel score_desc y (insert_desc x l).
Proof.
  intros Hh Hyx. destruct l as [| z t]; simpl; [constructor; exact Hyx |].
  destruct (qgt (score z) (score x)); constructor; [inversion Hh; assumption | exact Hyx].
Qed.

Lemma insert_desc_sorted (x : context) (l : list context) :
  Sorted score_desc l -> Sorted score_desc (insert_desc x l).
Proof.
  induction l as [| y t IH]; intro Hs; simpl; [repeat constructor |].
  destruct (qgt (score y) (score x)) eqn:E.
  - inversion Hs as [| ? ? Ht Hh]. subst. constructor; [exact (IH Ht) |].
    apply insert_desc_hdrel; [exact Hh | apply Qlt_le_weak, qgt_true, E].
  - constructor; [exact Hs |]. constructor. unfold score_desc. apply qgt_false, E.
Qed.

Lemma sort_desc_sorted (l : list context) : Sorted score_desc (sort_desc l).
Proof.
  induction l as [| x t IH]; simpl; [constructor | apply insert_desc_sorted, IH].
Qed.

Lemma list_take_nat {A} (k : nat) (l : list A) : Py.list_take (Z.of_nat k) l = firstn k l.
Proof.
  unfold Py.list_take. replace (0 <=? Z.of_nat k) with true by (symmetry; apply Z.leb_le; lia).
  rewrite Nat2Z.id. reflexivity.
Qed.

Lemma firstn_sorted {A} (R : A -> A -> Prop) (k : nat) (l : list A) :
  Sorted R l -> Sorted R (firstn k l).
Proof.
  revert l. induction k as [| k IH]; intros l Hs; [constructor |].
  destruct l as [| x t]; simpl; [constructor |].
  inversion Hs as [| ? ? Ht Hh]. subst. constructor; [exact (IH t Ht) |].
  destruct k as [| k']; simpl; [constructor |].
  destruct t as [| y t']; simpl; [constructor |]. inversion Hh. constructor. assumption.
Qed.

(** ** C1: deduplication, ranking and truncation of the aggregation step *)

(** C1. Passing retrieved contexts through the aggregation block of
    [multi_strategy_retrieval] (and [query_expansion]): for every input context,
    exactly one survivor carries its fingerprint, and that survivor has the
    highest score among the inputs sharing the fingerprint; survivors are
    inputs; the output is the survivors sorted by descending score and cut to
    the requested count [k]. *)
Theorem aggregation_dedup_rank (l : list context) (k : nat) :
  let survivors := map snd (unique_contexts content_hash l) in
  (forall c, In c l ->
     List.length (filter (fun s => String.eqb (content_hash s) (content_hash c)) survivors) = 1%nat /\
     exists s, In s survivors /\ content_hash s = content_hash c /\
       (forall c', In c' l -> content_hash c' = content_hash c -> (score c' <= score s)%Q)) /\
  (forall s, In s survivors -> In s l) /\
  Permutation (sort_desc survivors) survivors /\
  dedup_sort_take (Z.of_nat k) l = firstn k (sort_desc survivors) /\
  Sorted score_desc (dedup_sort_take (Z.of_nat k) l) /\
  List.length (dedup_sort_take (Z.of_nat k) l) = Nat.min k (List.length survivors).
Proof.
  intro survivors.
  assert (Htake : dedup_sort_take (Z.of_nat k) l = firstn k (sort_desc survivors))
    by (unfold dedup_sort_take; apply list_take_nat).
  split; [| split; [| split; [| split; [| split]]]].
  - intros c Hin. exact (unique_contexts_survivor content_hash l c Hin).
  - intros s Hs. exact (unique_contexts_from_input content_hash l s Hs).
  - apply sort_desc_perm.
  - exact Htake.
  - rewrite Htake. apply firstn_sorted, sort_desc_sorted.
  - rewrite Htake, length_firstn, (Permutation_length (sort_desc_perm survivors)). reflexivity.
Qed.

(** ** C6: the fingerprint *)






(** ** Cache lookups *)

Definition tick (st : St) : St :=
  {| cache := cache st; retrieve_log := retrieve_log st; invoke_log := invoke_log st;
     ticks := S (ticks st) |}.

(** No entry for [key], or an entry at least [cache_ttl] old at the next clock reading. *)
Definition cache_miss (env : Env) (key : string) (st : St) : Prop :=
  dict_get key (cache st) = None \/
  exists e, dict_get key (cache st) = Some e /\ ~ (clock env (ticks st) - timestamp e < cache_ttl)%Q.

Lemma qgt_iff (a b : Q) : qgt a b = true <-> (b < a)%Q.
Proof.
  split; [apply qgt_true |]. intro H. destruct (qgt a b) eqn:E; [reflexivity |].
  apply qgt_false in E. exfalso. apply (Qlt_not_le _ _ H E).
Qed.

Lemma cache_lookup_hit (env : Env) (key : string) (st : St) (e : entry) :
  dict_get key (cache st) = Some e -> (clock env (ticks st) - timestamp e < cache_ttl)%Q ->
  cache_lookup env key st = (inr (Some (e_result e)), tick st).
Proof.
  intros Hg Hlt. unfold cache_lookup. rewrite Hg. unfold bind, time_time, ret.
  apply qgt_iff in Hlt. rewrite Hlt. reflexivity.
Qed.

Lemma cache_lookup_miss (env : Env) (key : string) (st : St) :
  cache_miss env key st ->
  exists st1, cache_lookup env key st = (inr None, st1) /\ cache st1 = cache st /\
    retrieve_log st1 = retrieve_log st /\ invoke_log st1 = invoke_log st.
Proof.
  unfold cache_lookup. intros [Hn | [e [Hg Hnlt]]].
  - rewrite Hn. exists st. repeat split.
  - rewrite Hg. unfold bind, time_time, ret.
    destruct (qgt cache_ttl (clock env (ticks st) - timestamp e)) eqn:E.
    + apply qgt_iff in E. contradiction.
    + eexists. repeat split.
Qed.

Lemma cache_lookup_total (env : Env) (key : string) (st : St) :
  exists o st1, cache_lookup env key st = (inr o, st1) /\ cache st1 = cache st /\
    retrieve_log st1 = retrieve_log st /\ invoke_log st1 = invoke_log st.
Proof.
  unfold cache_lookup. destruct (dict_get key (cache st)) as [e |].
  - unfold bind, time_time, ret. eexists; eexists. repeat split.
  - exists None, st. repeat split.
Qed.

(** ** C7: [standard_query] absorbs a failed retrieval *)

Definition standard_key (q : string) (n : Z) : string :=
  generate_cache_key q n [("method", "standard")].

Lemma standard_query_total (env : Env) (q : string) (n : Z) (st : St) :
  exists r st', standard_query env q n st = (inr r, st').
Proof.
  destruct (cache_lookup_total env (standard_key q n) st) as [o [st1 [Hl _]]].
  unfold standard_key in Hl. cbv [standard_query bind catch retrieve ret cache_store time_time].
  rewrite Hl. destruct o as [r |].
  - exists r, st1. reflexivity.
  - destruct (kb_retrieve env (List.length (retrieve_log st1)) q n) as [e | items];
      eexists; eexists; reflexivity.
Qed.

(** C7. [standard_query] never raises; when the knowledge-base [retrieve] call
    raises (on a cache miss), it returns the mock fallback result: it carries
    the error message, has exactly one context, of score 1.0, and the cache is
    left as it was. *)
Theorem standard_query_fallback (env : Env) (q : string) (n : Z) (st : St) (e : string) :
  cache_miss env (standard_key q n) st ->
  kb_retrieve env (List.length (retrieve_log st)) q n = inl e ->
  (forall st0, exists r st', standard_query env q n st0 = (inr r, st')) /\
  exists st', standard_query env q n st = (inr (mock_result q e), st') /\
    cache st' = cache st /\ retrieve_log st' = app (retrieve_log st) [(q, n)] /\
    error (mock_result q e) = Some e /\
    exists c, contexts (mock_result q e) = [c] /\ score c = 1%Q.
Proof.
  intros Hmiss Hfail. split; [intro st0; apply standard_query_total |].
  destruct (cache_lookup_miss env _ st Hmiss) as [st1 [Hl [Hc [Hr _]]]].
  unfold standard_key in Hl. cbv [standard_query bind catch retrieve ret cache_store time_time].
  rewrite Hl, Hr, Hfail.
  eexists. split; [reflexivity |]. simpl. rewrite Hc.
  repeat split. eexists. split; reflexivity.
Qed.

(** A knowledge base that always fails, a model that always fails, and a clock
    reading [t] at every call. *)
Definition env_down (t : Q) : Env :=
  {| kb_retrieve := fun _ _ _ => inl "ReadTimeoutError";
     model_invoke := fun _ _ => inl "ThrottlingException";
     clock := fun _ => t |}.

Definition st_empty : St := {| cache := []; retrieve_log := []; invoke_log := []; ticks := 0 |}.

Lemma standard_query_fallback_witness :
  cache_miss (env_down 0) (standard_key "tables" 5) st_empty /\
  kb_retrieve (env_down 0) 0 "tables" 5 = inl "ReadTimeoutError" /\
  ((forall st0, exists r st', standard_query (env_down 0) "tables" 5 st0 = (inr r, st')) /\
   exists st', standard_query (env_down 0) "tables" 5 st_empty =
                 (inr (mock_result "tables" "ReadTimeoutError"), st') /\
     cache st' = cache st_empty /\ retrieve_log st' = app (retrieve_log st_empty) [("tables", 5)] /\
     error (mock_result "tables" "ReadTimeoutError") = Some "ReadTimeoutError" /\
     exists c, contexts (mock_result "tables" "ReadTimeoutError") = [c] /\ score c = 1%Q).
Proof.
  split; [left; reflexivity |]. split; [reflexivity |].
  apply (standard_query_fallback (env_down 0) "tables" 5 st_empty "ReadTimeoutError");
    [left; reflexivity | reflexivity].
Defined.

(** ** C2: the TTL cache of [standard_query] *)

(** C2 (counterexample). The entry is older than the TTL and the retrieval
    raises: the knowledge base is called, but the stale entry is kept, not
    overwritten with a fresh result. *)
Definition old_entry : entry := {| e_result := standard_result "tables" []; timestamp := 0 |}.

Definition st_stale : St :=
  {| cache := [(standard_key "tables" 5, old_entry)]; retrieve_log := []; invoke_log := [];
     ticks := 0 |}.

Lemma standard_query_stale_not_overwritten :
  let '(r, st') := standard_query (env_down 7200) "tables" 5 st_stale in
  retrieve_log st' = [("tables", 5)] /\
  dict_get (standard_key "tables" 5) (cache st') = Some old_entry /\
  r = inr (mock_result "tables" "ReadTimeoutError").
Proof. vm_compute. repeat split. Qed.

(** C2 (amended). A call with the same (query text, num_results) while the
    entry is younger than the TTL answers the stored result and makes no
    retrieve call. Otherwise (no entry, or TTL elapsed) it calls retrieve once:
    on success it answers the fresh result and overwrites the entry with it;
    on failure it answers the mock fallback and leaves the cache unchanged. *)
Theorem standard_query_cache (env : Env) (q : string) (n : Z) (st : St) :
  (forall e, dict_get (standard_key q n) (cache st) = Some e ->
     (clock env (ticks st) - timestamp e < cache_ttl)%Q ->
     standard_query env q n st = (inr (e_result e), tick st) /\
     retrieve_log (tick st) = retrieve_log st) /\
  (cache_miss env (standard_key q n) st ->
     forall items, kb_retrieve env (List.length (retrieve_log st)) q n = inr items ->
     exists st' t, standard_query env q n st = (inr (standard_result q items), st') /\
       retrieve_log st' = app (retrieve_log st) [(q, n)] /\
       dict_get (standard_key q n) (cache st') =
         Some {| e_result := standard_result q items; timestamp := t |}) /\
  (cache_miss env (standard_key q n) st ->
     forall e, kb_retrieve env (List.length (retrieve_log st)) q n = inl e ->
     exists st', standard_query env q n st = (inr (mock_result q e), st') /\
       retrieve_log st' = app (retrieve_log st) [(q, n)] /\ cache st' = cache st).
Proof.
  split; [| split].
  - intros e Hg Hlt. split; [| reflexivity].
    pose proof (cache_lookup_hit env _ st e Hg Hlt) as Hl. unfold standard_key in Hl.
    cbv [standard_query bind catch retrieve ret cache_store time_time]. rewrite Hl. reflexivity.
  - intros Hmiss items Hok.
    destruct (cache_lookup_miss env _ st Hmiss) as [st1 [Hl [Hc [Hr _]]]].
    unfold standard_key in Hl. cbv [standard_query bind catch retrieve ret cache_store time_time].
    rewrite Hl, Hr, Hok. do 2 eexists. split; [reflexivity |]. simpl.
    split; [reflexivity | apply dict_get_set_eq].
  - intros Hmiss e Hfail.
    destruct (cache_lookup_miss env _ st Hmiss) as [st1 [Hl [Hc [Hr _]]]].
    unfold standard_key in Hl. cbv [standard_query bind catch retrieve ret cache_store time_time].
    rewrite Hl, Hr, Hfail. eexists. split; [reflexivity |]. simpl. rewrite Hc. split; reflexivity.
Qed.

(** Entry written at time 0, read back at time 10 (hit) and retried at time 7200 (miss). *)
Definition env_up (t : Q) : Env :=
  {| kb_retrieve := fun _ _ _ => inr []; model_invoke := fun _ _ => inr ""; clock := fun _ => t |}.

Lemma standard_query_cache_witness :
  (standard_query (env_down 10) "tables" 5 st_stale = (inr (e_result old_entry), tick st_stale) /\
   retrieve_log (tick st_stale) = retrieve_log st_stale) /\
  (exists st' t, standard_query (env_up 7200) "tables" 5 st_stale =
                   (inr (standard_result "tables" []), st') /\
     retrieve_log st' = app (retrieve_log st_stale) [("tables", 5)] /\
     dict_get (standard_key "tables" 5) (cache st') =
       Some {| e_result := standard_result "tables" []; timestamp := t |}).
Proof.
  split.
  - apply (proj1 (standard_query_cache (env_down 10) "tables" 5 st_stale) old_entry).
    + vm_compute. reflexivity.
    + vm_compute. reflexivity.
  - apply (proj1 (proj2 (standard_query_cache (env_up 7200) "tables" 5 st_stale))).
    + right. exists old_entry. split; [vm_compute; reflexivity |].
      unfold cache_ttl. vm_compute. intro H. discriminate.
    + reflexivity.
Defined.

(** ** C3: forced modes of the router *)

Definition kbs_db_only : ApplicationKBs :=
  {| databaseKnowledgeBaseId := "KB-DB"; supportKnowledgeBaseId := None;
     documentationKnowledgeBaseId := None |}.

(** C3 (counterexample). Forcing [support] (or [documentation]) for an
    application without that knowledge base gives no target at all, not a
    database fallback. *)
Lemma router_forced_missing_source_empty :
  classify_query_and_get_targets "How do I fix login errors?" kbs_db_only "support" = [] /\
  classify_query_and_get_targets "Show the user guide" kbs_db_only "documentation" = [].
Proof. split; reflexivity. Qed.

(** C3 (amended). [mode = database] gives exactly the database target, whatever
    the query; a forced [support] or [documentation] mode gives the single
    target of that type when the application has a non-empty id for it, and
    the empty list otherwise, and [/query/multi] then rejects the request:
    the [HTTPException(400)] it raises is re-raised by its outer handler as
    HTTP 500 with detail "400: No knowledge base targets available for this
    query"; every other mode (smart routing) gives exactly one target. *)
Theorem router_forced_modes (query_text : string) (kbs : ApplicationKBs) :
  classify_query_and_get_targets query_text kbs "database" =
    [target "database" (databaseKnowledgeBaseId kbs)] /\
  (forall id, supportKnowledgeBaseId kbs = Some id -> id <> "" ->
     classify_query_and_get_targets query_text kbs "support" = [target "support" id]) /\
  ((supportKnowledgeBaseId kbs = None \/ supportKnowledgeBaseId kbs = Some "") ->
     classify_query_and_get_targets query_text kbs "support" = [] /\
     forall query_kb it ic,
       multi_kb_query query_kb it ic (classify_query_and_get_targets query_text kbs "support") =
         inl (500, "400: No knowledge base targets available for this query")) /\
  (forall id, documentationKnowledgeBaseId kbs = Some id -> id <> "" ->
     classify_query_and_get_targets query_text kbs "documentation" = [target "documentation" id]) /\
  ((documentationKnowledgeBaseId kbs = None \/ documentationKnowledgeBaseId kbs = Some "") ->
     classify_query_and_get_targets query_text kbs "documentation" = [] /\
     forall query_kb it ic,
       multi_kb_query query_kb it ic (classify_query_and_get_targets query_text kbs "documentation") =
         inl (500, "400: No knowledge base targets available for this query")) /\
  (forall mode, mode <> "support" -> mode <> "documentation" ->
     exists t, classify_query_and_get_targets query_text kbs mode = [t]).
Proof.
  split; [reflexivity |]. split; [| split; [| split; [| split]]].
  - intros id Hs Hne. unfold classify_query_and_get_targets. simpl. rewrite Hs. simpl.
    apply String.eqb_neq in Hne. rewrite Hne. reflexivity.
  - intros Hs.
    assert (E : classify_query_and_get_targets query_text kbs "support" = [])
      by (destruct Hs as [Hs | Hs]; unfold classify_query_and_get_targets; simpl; rewrite Hs; reflexivity).
    rewrite E. split; [reflexivity | intros; reflexivity].
  - intros id Hs Hne. unfold classify_query_and_get_targets. simpl. rewrite Hs. simpl.
    apply String.eqb_neq in Hne. rewrite Hne. reflexivity.
  - intros Hs.
    assert (E : classify_query_and_get_targets query_text kbs "documentation" = [])
      by (destruct Hs as [Hs | Hs]; unfold classify_query_and_get_targets; simpl; rewrite Hs; reflexivity).
    rewrite E. split; [reflexivity | intros; reflexivity].
  - intros mode Hns Hnd. unfold classify_query_and_get_targets.
    apply String.eqb_neq in Hns, Hnd. rewrite Hns, Hnd.
    cbv zeta.
    repeat match goal with
           | |- context [if ?b then _ else _] => destruct b
           | |- context [match ?o with Some _ => _ | None => _ end] => destruct o
           end; eexists; reflexivity.
Qed.

(** ** C4: smart routing *)

Definition kbs_all : ApplicationKBs :=
  {| databaseKnowledgeBaseId := "KB-DB"; supportKnowledgeBaseId := Some "KB-SUP";
     documentationKnowledgeBaseId := Some "KB-DOC" |}.

(** A query with two or more database keywords and no support or
    documentation keyword goes to the database knowledge base. *)
Lemma smart_database_keywords (query_text : string) (kbs : ApplicationKBs) :
  (2 <= keyword_score db_keywords (Py.lower query_text)) ->
  keyword_score support_keywords (Py.lower query_text) = 0 ->
  keyword_score doc_keywords (Py.lower query_text) = 0 ->
  classify_query_and_get_targets query_text kbs "smart" =
    [target "database" (databaseKnowledgeBaseId kbs)].
Proof.
  intros Hdb Hs Hd. unfold classify_query_and_get_targets. simpl.
  rewrite Hs, Hd. replace ((0 <=? keyword_score db_keywords (Py.lower query_text)) &&
                           (0 <=? keyword_score db_keywords (Py.lower query_text))) with true
    by (symmetry; apply andb_true_iff; split; apply Z.leb_le; lia).
  reflexivity.
Qed.

(** C4 (failing input). "error guide" hits one support keyword ("error") and one
    documentation keyword ("guide"), and no database keyword; with every
    knowledge base configured, the support/documentation tie goes to
    documentation, not to support. *)
Theorem smart_tie_support_documentation :
  keyword_score db_keywords (Py.lower "error guide") = 0 /\
  keyword_score support_keywords (Py.lower "error guide") = 1 /\
  keyword_score doc_keywords (Py.lower "error guide") = 1 /\
  classify_query_and_get_targets "error guide" kbs_all "smart" = [target "documentation" "KB-DOC"].
Proof. vm_compute. repeat split. Qed.

(** ** C5: merging a primary answer with secondary excerpts *)

Lemma take_length (n : nat) (s : string) : String.length (Py.take n s) = Nat.min n (String.length s).
Proof.
  unfold Py.take. revert s. induction n as [| n IH]; intro s; [destruct s; reflexivity |].
  destruct s as [| c s']; simpl; [reflexivity | rewrite IH; reflexivity].
Qed.

Lemma take_prefix (n : nat) (s : string) : prefix (Py.take n s) s = true.
Proof.
  unfold Py.take. revert s. induction n as [| n IH]; intro s; [destruct s; reflexivity |].
  destruct s as [| c s']; simpl; [reflexivity |].
  destruct (ascii_dec c c); [apply IH | contradiction].
Qed.

Lemma filter_primary_split (pre post : list kb_result) (p : kb_result) :
  forallb is_secondary pre = true -> is_secondary p = false ->
  filter (fun r => negb (is_secondary r)) (app pre (p :: post)) =
  p :: filter (fun r => negb (is_secondary r)) post.
Proof.
  intros Hpre Hp. rewrite filter_app. simpl. rewrite Hp. simpl.
  replace (filter (fun r => negb (is_secondary r)) pre) with (@nil kb_result); [reflexivity |].
  induction pre as [| r rest IH]; simpl in *; [reflexivity |].
  apply andb_true_iff in Hpre. destruct Hpre as [Hr Hrest]. rewrite Hr. simpl. exact (IH Hrest).
Qed.

Lemma merge_results_cons2 (r0 r1 : kb_result) (rest : list kb_result) :
  merge_results (r0 :: r1 :: rest) =
  let results := r0 :: r1 :: rest in
  let secondary_results := filter is_secondary results in
  match filter (fun r => negb (is_secondary r)) results with
  | p :: _ =>
      match secondary_results with
      | [] => Some p
      | _ => Some (with_answer p (answer p ++ secondary_info secondary_results))
      end
  | [] => Some r0
  end.
Proof. reflexivity. Qed.

(** C5. When the collected per-target results contain a primary (non-secondary)
    result [p], preceded only by secondary ones, and at least one secondary
    result, [multi_kb_query] answers [p]'s answer in full followed by a
    "Related Information" block made of one section per secondary result [s]
    in order: the section is labelled with the title-cased source type of [s]
    and carries [s]'s answer cut to its first 200 characters. The source
    types of the secondary results are taken among the strings whose title
    case stays within the modelled code points ([Py.title_fits]). *)
Theorem merge_primary_then_excerpts (query_kb : QueryTarget -> option rag_answer)
    (targets : list QueryTarget) (include_thinking include_contexts : bool)
    (pre post : list kb_result) (p : kb_result) :
  collect_results query_kb targets = app pre (p :: post) ->
  forallb is_secondary pre = true -> is_secondary p = false ->
  existsb is_secondary (app pre (p :: post)) = true ->
  forallb (fun s => Py.title_fits (source_type s)) (filter is_secondary (app pre (p :: post))) = true ->
  let secondaries := filter is_secondary (app pre (p :: post)) in
  exists resp,
    multi_kb_query query_kb include_thinking include_contexts targets = inr resp /\
    resp_answer resp = answer p ++ nl ++ nl ++ "**Related Information:**" ++ nl ++
                       String.concat "" (map secondary_section secondaries) /\
    secondaries <> [] /\
    (forall s, In s secondaries ->
       secondary_section s = nl ++ "*From " ++ Py.title (source_type s) ++ ":* " ++
                             Py.take 200 (answer s) ++ "..." /\
       prefix (Py.take 200 (answer s)) (answer s) = true /\
       String.length (Py.take 200 (answer s)) = Nat.min 200 (String.length (answer s))).
Proof.
  intros Hcol Hpre Hp Hex _. cbv zeta.
  assert (Hsec : filter is_secondary (app pre (p :: post)) <> []).
  { intro H. apply existsb_exists in Hex. destruct Hex as [x [Hx Hxs]].
    assert (Hin : In x (filter is_secondary (app pre (p :: post))))
      by (apply filter_In; split; assumption).
    rewrite H in Hin. exact Hin. }
  assert (Hmerge : merge_results (app pre (p :: post)) =
                   Some (with_answer p (answer p ++
                           secondary_info (filter is_secondary (app pre (p :: post)))))).
  { assert (Hlen : (2 <= List.length (app pre (p :: post)))%nat).
    { rewrite length_app. simpl.
      destruct pre as [| x pre']; [| simpl; lia].
      destruct post as [| y post']; [| simpl; lia].
      exfalso. apply Hsec. simpl. rewrite Hp. reflexivity. }
    destruct (app pre (p :: post)) as [| r0 [| r1 rest]] eqn:E;
      [simpl in Hlen; lia | simpl in Hlen; lia |].
    rewrite merge_results_cons2. cbv zeta. rewrite <- E. rewrite <- E in Hsec.
    rewrite (filter_primary_split pre post p Hpre Hp).
    destruct (filter is_secondary (app pre (p :: post))) eqn:Es; [contradiction | reflexivity]. }
  destruct targets as [| t0 ts].
  - simpl in Hcol. destruct pre; discriminate.
  - eexists. split.
    + unfold multi_kb_query, multi_kb_query_try. rewrite Hcol, Hmerge. reflexivity.
    + split; [reflexivity |]. split; [exact Hsec |].
      intros s _. split; [reflexivity |]. split; [apply take_prefix | apply take_length].
Qed.

Definition target_sup : QueryTarget := {| type := "support"; kbId := "KB-SUP"; secondary := Some false |}.
Definition target_db2 : QueryTarget := {| type := "database"; kbId := "KB-DB"; secondary := Some true |}.

Definition rag_of (t : QueryTarget) : rag_answer :=
  {| r_answer := "Answer from " ++ kbId t; r_thinking := ""; r_retrieved_contexts := [] |}.

Definition answer_of (t : QueryTarget) : option rag_answer := Some (rag_of t).

Definition results_sup_db : list kb_result :=
  [tag_result target_sup (rag_of target_sup); tag_result target_db2 (rag_of target_db2)].

Lemma merge_primary_then_excerpts_witness :
  collect_results answer_of [target_sup; target_db2] =
    app [] (tag_result target_sup (rag_of target_sup) :: [tag_result target_db2 (rag_of target_db2)]) /\
  forallb (fun s => Py.title_fits (source_type s)) (filter is_secondary results_sup_db) = true /\
  (let secondaries := filter is_secondary results_sup_db in
   exists resp,
    multi_kb_query answer_of false false [target_sup; target_db2] = inr resp /\
    resp_answer resp = answer (tag_result target_sup (rag_of target_sup)) ++ nl ++ nl ++
                       "**Related Information:**" ++ nl ++
                       String.concat "" (map secondary_section secondaries) /\
    secondaries <> [] /\
    (forall s, In s secondaries ->
       secondary_section s = nl ++ "*From " ++ Py.title (source_type s) ++ ":* " ++
                             Py.take 200 (answer s) ++ "..." /\
       prefix (Py.take 200 (answer s)) (answer s) = true /\
       String.length (Py.take 200 (answer s)) = Nat.min 200 (String.length (answer s)))).
Proof.
  split; [reflexivity |]. split; [vm_compute; reflexivity |].
  exact (merge_primary_then_excerpts answer_of [target_sup; target_db2] false false []
           [tag_result target_db2 (rag_of target_db2)] (tag_result target_sup (rag_of target_sup))
           eq_refl eq_refl eq_refl eq_refl eq_refl).
Defined.

(** ** C8: processing with nothing pending *)

(** C8. When no [query_feedback] row of the knowledge base and company is a
    pending correction, [process_pending_feedback] answers
    [status = no_pending_feedback] and leaves every table (feedback statuses,
    [training_data], [kb_improvement_log]) as it was. *)
Theorem process_pending_noop (kb_id : string) (company_id : Z) (rn : Feedback.run) (db : Feedback.DB) :
  (forall f, In f (Feedback.query_feedback db) ->
     Feedback.KnowledgeBaseId f = kb_id -> Feedback.CompanyId f = company_id ->
     Feedback.ProcessingStatus f = "pending" -> Feedback.FeedbackType f <> "correction") ->
  let (r, db') := Feedback.process_pending_feedback kb_id company_id rn db in
  Feedback.status r = "no_pending_feedback" /\ Feedback.processed r = 0 /\ db' = db /\
  Feedback.training_data db' = Feedback.training_data db /\
  Feedback.kb_improvement_log db' = Feedback.kb_improvement_log db /\
  Feedback.query_feedback db' = Feedback.query_feedback db.
Proof.
  intro Hnone.
  assert (Hsel : Feedback.select_pending kb_id company_id db = []).
  { unfold Feedback.select_pending.
    replace (filter _ (Feedback.query_feedback db)) with (@nil Feedback.feedback_row); [reflexivity |].
    symmetry.
    induction (Feedback.query_feedback db) as [| f rest IH]; [reflexivity |].
    simpl. destruct (String.eqb (Feedback.KnowledgeBaseId f) kb_id) eqn:E1;
      [| apply IH; intros g Hg; apply Hnone; right; exact Hg].
    destruct (Feedback.CompanyId f =? company_id) eqn:E2;
      [| apply IH; intros g Hg; apply Hnone; right; exact Hg].
    destruct (String.eqb (Feedback.ProcessingStatus f) "pending") eqn:E3;
      [| apply IH; intros g Hg; apply Hnone; right; exact Hg].
    destruct (String.eqb (Feedback.FeedbackType f) "correction") eqn:E4;
      [| apply IH; intros g Hg; apply Hnone; right; exact Hg].
    exfalso. apply String.eqb_eq in E1, E3, E4. apply Z.eqb_eq in E2.
    exact (Hnone f (or_introl eq_refl) E1 E2 E3 E4). }
  unfold Feedback.process_pending_feedback. rewrite Hsel. repeat split.
Qed.

Definition reviewed_row : Feedback.feedback_row :=
  {| Feedback.Id := 1; Feedback.KnowledgeBaseId := "KB-DB"; Feedback.CompanyId := 7;
     Feedback.ProcessingStatus := "reviewed"; Feedback.FeedbackType := "correction";
     Feedback.CreatedAt := 0; Feedback.OriginalQuery := "list customers";
     Feedback.OriginalResponse := "SELECT 1"; Feedback.CorrectedResponse := "SELECT * FROM customer";
     Feedback.FeedbackNotes := ""; Feedback.ProcessedBy := Some "system";
     Feedback.ProcessedAt := Some 0 |}.

Definition db_reviewed : Feedback.DB :=
  {| Feedback.query_feedback := [reviewed_row]; Feedback.training_data := [];
     Feedback.kb_improvement_log := []; Feedback.next_training_id := 1; Feedback.next_log_id := 1 |}.

(** A run in which every statement succeeds and the clocks read [t]. *)
Definition run_at (t : Z) : Feedback.run :=
  {| Feedback.outcome := fun _ => Feedback.RowOk; Feedback.sql_now := fun _ => t;
     Feedback.job_now := t |}.

Lemma process_pending_noop_witness :
  (forall f, In f (Feedback.query_feedback db_reviewed) ->
     Feedback.KnowledgeBaseId f = "KB-DB" -> Feedback.CompanyId f = 7 ->
     Feedback.ProcessingStatus f = "pending" -> Feedback.FeedbackType f <> "correction") /\
  let (r, db') := Feedback.process_pending_feedback "KB-DB" 7 (run_at 100) db_reviewed in
  Feedback.status r = "no_pending_feedback" /\ Feedback.processed r = 0 /\ db' = db_reviewed /\
  Feedback.training_data db' = Feedback.training_data db_reviewed /\
  Feedback.kb_improvement_log db' = Feedback.kb_improvement_log db_reviewed /\
  Feedback.query_feedback db' = Feedback.query_feedback db_reviewed.
Proof.
  assert (H : forall f, In f (Feedback.query_feedback db_reviewed) ->
     Feedback.KnowledgeBaseId f = "KB-DB" -> Feedback.CompanyId f = 7 ->
     Feedback.ProcessingStatus f = "pending" -> Feedback.FeedbackType f <> "correction").
  { intros f [Hf | []] _ _ Hs. subst f. discriminate Hs. }
  split; [exact H | exact (process_pending_noop "KB-DB" 7 (run_at 100) db_reviewed H)].
Defined.

(** ** C9: the retrieve calls of [relationship_retrieval] *)

Lemma retrieve_each_log (env : Env) (i : nat) (qs : list string) (n : Z)
    (acc : list context) (th : string) (st : St) :
  exists k, (k <= List.length qs)%nat /\
    retrieve_log (snd (retrieve_each env i qs n acc th st)) =
      app (retrieve_log st) (firstn k (map (fun q => (q, n)) qs)) /\
    ((forall j q m, exists items, kb_retrieve env j q m = inr items) ->
       k = List.length qs /\ exists v, fst (retrieve_each env i qs n acc th st) = inr v).
Proof.
  revert i acc th st. induction qs as [| q rest IH]; intros i acc th st.
  - exists 0%nat. simpl. split; [lia | split; [symmetry; apply app_nil_r |]].
    intros _. split; [reflexivity | eexists; reflexivity].
  - simpl. unfold bind, retrieve.
    destruct (kb_retrieve env (List.length (retrieve_log st)) q n) as [e | items] eqn:E.
    + exists 1%nat. simpl. split; [lia | split; [reflexivity |]].
      intro Hok. destruct (Hok (List.length (retrieve_log st)) q n) as [it Hit]. congruence.
    + match goal with
      | |- context [retrieve_each env (S i) rest n ?a ?t ?s] =>
          destruct (IH (S i) a t s) as [k [Hk [Hlog Hok]]]
      end.
      exists (S k). split; [simpl; lia |]. split.
      * rewrite Hlog. simpl. rewrite <- app_assoc. reflexivity.
      * intro H. destruct (Hok H) as [Hk' Hv]. split; [simpl; lia | exact Hv].
Qed.

Lemma generate_relationship_analysis_ok (env : Env) (t : string) (cs : list context) (st : St) :
  exists a st', generate_relationship_analysis env t cs st = (inr a, st') /\
    retrieve_log st' = retrieve_log st /\ cache st' = cache st.
Proof.
  cbv [generate_relationship_analysis catch bind invoke_model ret].
  destruct (model_invoke env _ _); do 2 eexists; (split; [reflexivity | split; reflexivity]).
Qed.

(** C9 (counterexample). With the default [k = 10] each of the five calls asks
    for [10 // 5 + 1 = 3] results, while the ceiling of [10 / 5] is 2. *)
Lemma relationship_per_template_not_ceiling :
  let '(_, st') := relationship_retrieval (env_up 0) "orders" 10 st_empty in
  retrieve_log st' = map (fun q => (q, 3)) (relationship_queries "orders") /\
  3 <> (10 + 5 - 1) / 5.
Proof. vm_compute. split; [reflexivity | discriminate]. Qed.

(** C9 (amended). On a cache miss, [relationship_retrieval] calls retrieve on
    the five template strings in order, each asking for [k // 5 + 1] results;
    a raising call ends the loop, so the calls made are a prefix of the five,
    and all five are made when no call raises. *)
Theorem relationship_retrieval_calls (env : Env) (table_name : string) (k : Z) (st : St) :
  cache_miss env (generate_cache_key table_name k [("method", "relationship")]) st ->
  List.length (relationship_queries table_name) = 5%nat /\
  (exists m, (m <= 5)%nat /\
     retrieve_log (snd (relationship_retrieval env table_name k st)) =
       app (retrieve_log st) (firstn m (map (fun q => (q, k / 5 + 1)) (relationship_queries table_name)))) /\
  ((forall j q n, exists items, kb_retrieve env j q n = inr items) ->
     retrieve_log (snd (relationship_retrieval env table_name k st)) =
       app (retrieve_log st) (map (fun q => (q, k / 5 + 1)) (relationship_queries table_name))).
Proof.
  intro Hmiss. destruct (cache_lookup_miss env _ st Hmiss) as [st1 [Hl [_ [Hr _]]]].
  split; [reflexivity |].
  cbv [relationship_retrieval bind catch ret cache_store time_time]. rewrite Hl.
  change (Z.of_nat (List.length (relationship_queries table_name))) with 5.
  match goal with
  | |- context [retrieve_each env ?i ?qs ?n ?acc ?th st1] =>
      destruct (retrieve_each_log env i qs n acc th st1) as [m [Hm [Hlog Hok]]];
      destruct (retrieve_each env i qs n acc th st1) as [[e | [all th']] st2] eqn:E
  end; simpl in Hlog; rewrite Hr in Hlog.
  - split.
    + exists m. split; [exact Hm | exact Hlog].
    + intro H. destruct (Hok H) as [_ [v Hv]]. discriminate Hv.
  - destruct (generate_relationship_analysis_ok env table_name (dedup_sort_take k all) st2)
      as [a [st3 [Ha [Har _]]]].
    rewrite Ha. simpl. rewrite Har. split.
    + exists m. split; [exact Hm | exact Hlog].
    + intro H. destruct (Hok H) as [Hk _]. rewrite Hlog, Hk. reflexivity.
Qed.

Lemma relationship_retrieval_calls_witness :
  cache_miss (env_up 0) (generate_cache_key "orders" 10 [("method", "relationship")]) st_empty /\
  (List.length (relationship_queries "orders") = 5%nat /\
   (exists m, (m <= 5)%nat /\
      retrieve_log (snd (relationship_retrieval (env_up 0) "orders" 10 st_empty)) =
        app (retrieve_log st_empty)
          (firstn m (map (fun q => (q, 10 / 5 + 1)) (relationship_queries "orders")))) /\
   ((forall j q n, exists items, kb_retrieve (env_up 0) j q n = inr items) ->
      retrieve_log (snd (relationship_retrieval (env_up 0) "orders" 10 st_empty)) =
        app (retrieve_log st_empty) (map (fun q => (q, 10 / 5 + 1)) (relationship_queries "orders")))).
Proof.
  split; [left; reflexivity |].
  apply (relationship_retrieval_calls (env_up 0) "orders" 10 st_empty). left; reflexivity.
Defined.

(** ** C10: only successful results are cached *)

(** Every entry of [self.cache] holds a result without an [error] key. *)
Definition cache_ok (st : St) : Prop :=
  forall k e, In (k, e) (cache st) -> error (e_result e) = None.

(** [time.time()] never goes backwards. *)
Definition clock_mono (env : Env) : Prop :=
  forall a b, (a <= b)%nat -> (clock env a <= clock env b)%Q.

(** A step that leaves the cache as it is and does not turn the clock back. *)
Definition keeps_cache {A} (m : M A) : Prop :=
  forall st, cache (snd (m st)) = cache st /\ (ticks st <= ticks (snd (m st)))%nat.

Definition pres_ok {A} (m : M A) : Prop :=
  forall st, cache_ok st -> cache_ok (snd (m st)).

Definition total {A} (m : M A) : Prop :=
  forall st, exists a st', m st = (inr a, st').

Section CacheFacts.
Variable env : Env.

Lemma keeps_ret {A} (a : A) : keeps_cache (ret a).
Proof. intro st. split; reflexivity. Qed.

Lemma keeps_bind {A B} (m : M A) (k : A -> M B) :
  keeps_cache m -> (forall a, keeps_cache (k a)) -> keeps_cache (bind m k).
Proof.
  intros Hm Hk st. unfold bind. destruct (Hm st) as [H1 H2].
  destruct (m st) as [[e | a] st1]; simpl in *; [auto |].
  destruct (Hk a st1) as [H3 H4]. split; [congruence | lia].
Qed.

Lemma keeps_catch {A} (m : M A) (h : string -> M A) :
  keeps_cache m -> (forall e, keeps_cache (h e)) -> keeps_cache (catch m h).
Proof.
  intros Hm Hh st. unfold catch. destruct (Hm st) as [H1 H2].
  destruct (m st) as [[e | a] st1]; simpl in *; [| auto].
  destruct (Hh e st1) as [H3 H4]. split; [congruence | lia].
Qed.

Lemma keeps_retrieve (t : string) (n : Z) : keeps_cache (retrieve env t n).
Proof.
  intro st. unfold retrieve. destruct (kb_retrieve env _ t n); simpl; split; reflexivity.
Qed.

Lemma keeps_invoke_model (p : string) : keeps_cache (invoke_model env p).
Proof.
  intro st. unfold invoke_model. destruct (model_invoke env _ p); simpl; split; reflexivity.
Qed.

Lemma keeps_cache_lookup (key : string) : keeps_cache (cache_lookup env key).
Proof.
  intro st. unfold cache_lookup. destruct (dict_get key (cache st)); simpl; [split; [reflexivity | lia] |].
  split; reflexivity.
Qed.

Lemma keeps_generate_expanded_queries (q : string) : keeps_cache (generate_expanded_queries env q).
Proof.
  unfold generate_expanded_queries. apply keeps_catch; [| intros; apply keeps_ret].
  apply keeps_bind; [apply keeps_invoke_model | intros; apply keeps_ret].
Qed.

Lemma keeps_generate_hypothetical_document (q : string) :
  keeps_cache (generate_hypothetical_document env q).
Proof.
  unfold generate_hypothetical_document. apply keeps_catch; [| intros; apply keeps_ret].
  apply keeps_bind; [apply keeps_invoke_model | intros; apply keeps_ret].
Qed.

Lemma keeps_generate_relationship_analysis (t : string) (cs : list context) :
  keeps_cache (generate_relationship_analysis env t cs).
Proof.
  unfold generate_relationship_analysis. apply keeps_catch; [| intros; apply keeps_ret].
  apply keeps_bind; [apply keeps_invoke_model | intros; apply keeps_ret].
Qed.

Lemma keeps_retrieve_each (i : nat) (qs : list string) (n : Z) (acc : list context) (th : string) :
  keeps_cache (retrieve_each env i qs n acc th).
Proof.
  revert i acc th. induction qs as [| q rest IH]; intros i acc th; simpl.
  - apply keeps_ret.
  - apply keeps_bind; [apply keeps_retrieve | intros; apply IH].
Qed.

Lemma keeps_pres {A} (m : M A) : keeps_cache m -> pres_ok m.
Proof. intros Hm st Hok k e Hin. apply (Hok k e). rewrite <- (proj1 (Hm st)). exact Hin. Qed.

Lemma pres_ret {A} (a : A) : pres_ok (ret a).
Proof. apply keeps_pres, keeps_ret. Qed.

Lemma pres_bind {A B} (m : M A) (k : A -> M B) :
  pres_ok m -> (forall a, pres_ok (k a)) -> pres_ok (bind m k).
Proof.
  intros Hm Hk st Hok. unfold bind. pose proof (Hm st Hok) as H1.
  destruct (m st) as [[e | a] st1]; simpl in *; [exact H1 | exact (Hk a st1 H1)].
Qed.

Lemma pres_catch {A} (m : M A) (h : string -> M A) :
  pres_ok m -> (forall e, pres_ok (h e)) -> pres_ok (catch m h).
Proof.
  intros Hm Hh st Hok. unfold catch. pose proof (Hm st Hok) as H1.
  destruct (m st) as [[e | a] st1]; simpl in *; [exact (Hh e st1 H1) | exact H1].
Qed.

Lemma pres_cache_store (key : string) (r : result) :
  error r = None -> pres_ok (cache_store env key r).
Proof.
  intros Hr st Hok k e Hin. cbv [cache_store bind time_time] in Hin. simpl in Hin.
  destruct (dict_set_in _ _ _ _ _ Hin) as [Heq | Hin'].
  - inversion Heq. subst. exact Hr.
  - exact (Hok k e Hin').
Qed.

Lemma total_ret {A} (a : A) : total (ret a).
Proof. intro st. exists a, st. reflexivity. Qed.

Lemma total_bind {A B} (m : M A) (k : A -> M B) :
  total m -> (forall a, total (k a)) -> total (bind m k).
Proof.
  intros Hm Hk st. unfold bind. destruct (Hm st) as [a [st1 E]]. rewrite E. apply Hk.
Qed.

Lemma total_catch {A} (m : M A) (h : string -> M A) :
  (forall e, total (h e)) -> total (catch m h).
Proof.
  intros Hh st. unfold catch. destruct (m st) as [[e | a] st1]; [apply Hh | eauto].
Qed.

Lemma total_cache_lookup (key : string) : total (cache_lookup env key).
Proof. intro st. destruct (cache_lookup_total env key st) as [o [st1 [E _]]]. eauto. Qed.

Lemma total_cache_store (key : string) (r : result) : total (cache_store env key r).
Proof. intro st. cbv [cache_store bind time_time]. eauto. Qed.

End CacheFacts.

Section CacheOps.
Variable env : Env.

Lemma cache_lookup_some_ok (key : string) (st st1 : St) (r : result) :
  cache_ok st -> cache_lookup env key st = (inr (Some r), st1) -> error r = None.
Proof.
  intros Hok. unfold cache_lookup. destruct (dict_get key (cache st)) as [e |] eqn:G;
    [| discriminate].
  cbv [bind time_time ret]. destruct (qgt cache_ttl _); intro H; inversion H; subst.
  exact (Hok key e (dict_get_in _ _ _ G)).
Qed.

Lemma cache_lookup_none_miss (key : string) (st st1 : St) :
  cache_lookup env key st = (inr None, st1) ->
  cache_miss env key st /\ cache st1 = cache st /\ (ticks st <= ticks st1)%nat.
Proof.
  unfold cache_lookup, cache_miss. destruct (dict_get key (cache st)) as [e |] eqn:G.
  - cbv [bind time_time ret]. destruct (qgt cache_ttl (clock env (ticks st) - timestamp e)) eqn:Hq;
      intro H; inversion H; subst.
    split; [right; exists e; split; [reflexivity |] | simpl; split; [reflexivity | lia]].
    intro Hlt. apply qgt_iff in Hlt. congruence.
  - intro H. inversion H; subst. split; [left; reflexivity | split; reflexivity].
Qed.

(** A key that missed stays a miss as long as the cache is unchanged and the
    clock has not gone back. *)
Lemma cache_miss_later (key : string) (st st' : St) :
  clock_mono env -> cache_miss env key st -> cache st' = cache st ->
  (ticks st <= ticks st')%nat -> fst (cache_lookup env key st') = inr None.
Proof.
  intros Hmon [Hn | [e [Hg Hn]]] Hc Ht; unfold cache_lookup; rewrite Hc.
  - rewrite Hn. reflexivity.
  - rewrite Hg. cbv [bind time_time ret].
    destruct (qgt cache_ttl (clock env (ticks st') - timestamp e)) eqn:Hq; [| reflexivity].
    exfalso. apply Hn. apply qgt_iff in Hq.
    eapply Qle_lt_trans; [| exact Hq]. unfold Qminus.
    apply Qplus_le_compat; [exact (Hmon _ _ Ht) | apply Qle_refl].
Qed.

Lemma pres_cache_lookup (key : string) : pres_ok (cache_lookup env key).
Proof. apply keeps_pres, keeps_cache_lookup. Qed.

Lemma pres_standard_query (q : string) (n : Z) : pres_ok (standard_query env q n).
Proof.
  unfold standard_query. apply pres_bind; [apply pres_cache_lookup |].
  intros [r |]; [apply pres_ret |].
  apply pres_catch; [| intros; apply pres_ret].
  apply pres_bind; [apply keeps_pres, keeps_retrieve | intros items].
  apply pres_bind; [apply pres_cache_store; reflexivity | intros; apply pres_ret].
Qed.

Lemma pres_query_expansion (q : string) (n : Z) : pres_ok (query_expansion env q n).
Proof.
  unfold query_expansion. apply pres_bind; [apply pres_cache_lookup |].
  intros [r |]; [apply pres_ret |].
  apply pres_catch; [| intros; apply pres_ret].
  apply pres_bind; [apply keeps_pres, keeps_generate_expanded_queries | intros qs].
  apply pres_bind; [apply keeps_pres, keeps_retrieve_each | intros [all th]].
  apply pres_bind; [apply pres_cache_store; reflexivity | intros; apply pres_ret].
Qed.

Lemma pres_hyde_retrieval (q : string) (n : Z) : pres_ok (hyde_retrieval env q n).
Proof.
  unfold hyde_retrieval. apply pres_bind; [apply pres_cache_lookup |].
  intros [r |]; [apply pres_ret |].
  apply pres_catch; [| intros; apply pres_ret].
  apply pres_bind; [apply keeps_pres, keeps_generate_hypothetical_document | intros d].
  apply pres_bind; [apply keeps_pres, keeps_retrieve | intros items].
  apply pres_bind; [apply pres_cache_store; reflexivity | intros; apply pres_ret].
Qed.

Lemma pres_multi_strategy_retrieval (q : string) (n : Z) :
  pres_ok (multi_strategy_retrieval env q n).
Proof.
  unfold multi_strategy_retrieval. apply pres_bind; [apply pres_cache_lookup |].
  intros [r |]; [apply pres_ret |].
  apply pres_catch; [| intros; apply pres_ret].
  apply pres_bind; [apply pres_standard_query | intros r1].
  apply pres_bind; [apply pres_query_expansion | intros r2].
  apply pres_bind; [apply pres_hyde_retrieval | intros r3].
  apply pres_bind; [apply pres_cache_store; reflexivity | intros; apply pres_ret].
Qed.

Lemma pres_relationship_retrieval (t : string) (n : Z) :
  pres_ok (relationship_retrieval env t n).
Proof.
  unfold relationship_retrieval. apply pres_bind; [apply pres_cache_lookup |].
  intros [r |]; [apply pres_ret |].
  apply pres_catch; [| intros; apply pres_ret].
  apply pres_bind; [apply keeps_pres, keeps_retrieve_each | intros [all th]].
  apply pres_bind; [apply keeps_pres, keeps_generate_relationship_analysis | intros a].
  apply pres_bind; [apply pres_cache_store; reflexivity | intros; apply pres_ret].
Qed.

Lemma total_query_expansion (q : string) (n : Z) : total (query_expansion env q n).
Proof.
  unfold query_expansion. apply total_bind; [apply total_cache_lookup |].
  intros [r |]; [apply total_ret |]. apply total_catch. intros; apply total_ret.
Qed.

Lemma total_hyde_retrieval (q : string) (n : Z) : total (hyde_retrieval env q n).
Proof.
  unfold hyde_retrieval. apply total_bind; [apply total_cache_lookup |].
  intros [r |]; [apply total_ret |]. apply total_catch. intros; apply total_ret.
Qed.

End CacheOps.

(** A computation whose every successful result is free of [error]. *)
Definition ok_success (m : M result) : Prop :=
  forall st r st', m st = (inr r, st') -> error r = None.

(** A computation that, when it raises, has left the cache untouched. *)
Definition raise_keeps {A} (m : M A) : Prop :=
  forall st e st', m st = (inl e, st') -> cache st' = cache st /\ (ticks st <= ticks st')%nat.

Section Cached.
Variable env : Env.

Lemma ok_bind {A} (m : M A) (k : A -> M result) :
  (forall a, ok_success (k a)) -> ok_success (bind m k).
Proof.
  intros Hk st r st'. unfold bind. destruct (m st) as [[e | a] st1]; [discriminate | apply Hk].
Qed.

Lemma ok_store_ret (key : string) (r : result) :
  error r = None -> ok_success (bind (cache_store env key r) (fun _ => ret r)).
Proof. intros Hr st r' st'. cbv [bind cache_store time_time ret]. intro H. inversion H. subst. exact Hr. Qed.

Lemma rk_total {A} (m : M A) : total m -> raise_keeps m.
Proof. intros Hm st e st' H. destruct (Hm st) as [a [st1 E]]. congruence. Qed.

Lemma rk_bind {A B} (m : M A) (k : A -> M B) :
  keeps_cache m -> (forall a, raise_keeps (k a)) -> raise_keeps (bind m k).
Proof.
  intros Hm Hk st e st'. unfold bind. destruct (Hm st) as [H1 H2].
  destruct (m st) as [[e0 | a] st1]; simpl in *.
  - intro H. inversion H. subst. split; [exact H1 | exact H2].
  - intro H. destruct (Hk a st1 e st' H) as [H3 H4]. split; [congruence | lia].
Qed.

(** The shape shared by the cached strategies: look the key up, return a hit,
    otherwise run the body under [try] with an error-shaped handler. *)
Definition cached (key : string) (body : M result) (h : string -> M result) : M result :=
  hit <- cache_lookup env key ;;
  match hit with
  | Some r => ret r
  | None => catch body h
  end.

Lemma cached_error (key q meth : string) (body : M result) (st st' : St) (r : result) (e : string) :
  cache_ok st -> ok_success body -> raise_keeps body ->
  cached key body (fun e => ret (error_result q meth e)) st = (inr r, st') -> error r = Some e ->
  cache_miss env key st /\ cache st' = cache st /\ (ticks st <= ticks st')%nat.
Proof.
  intros Hok Hb Hr. unfold cached, bind.
  destruct (cache_lookup env key st) as [[x | [r0 |]] st1] eqn:L; [discriminate | |].
  - cbv [ret]. intro H. inversion H. subst. rewrite (cache_lookup_some_ok env key st _ r Hok L).
    discriminate.
  - destruct (cache_lookup_none_miss env key st st1 L) as [Hm [Hc Ht]].
    unfold catch. destruct (body st1) as [[x | r1] st2] eqn:B.
    + cbv [ret]. intros H _. inversion H. subst.
      destruct (Hr st1 x st' B) as [Hc' Ht']. split; [exact Hm | split; [congruence | lia]].
    + intros H He. inversion H. subst. rewrite (Hb st1 r st' B) in He. discriminate.
Qed.

Lemma cached_total_ok (key : string) (body : M result) (h : string -> M result) (st st' : St) (r : result) :
  cache_ok st -> ok_success body -> total body ->
  cached key body h st = (inr r, st') -> error r = None.
Proof.
  intros Hok Hb Ht. unfold cached, bind.
  destruct (cache_lookup env key st) as [[x | [r0 |]] st1] eqn:L; [discriminate | |].
  - cbv [ret]. intro H. inversion H. subst. exact (cache_lookup_some_ok env key st _ r Hok L).
  - unfold catch. destruct (Ht st1) as [r1 [st2 B]]. rewrite B. intro H. inversion H. subst.
    exact (Hb st1 r st' B).
Qed.

Lemma query_expansion_error (q : string) (n : Z) (st st' : St) (r : result) (e : string) :
  cache_ok st -> query_expansion env q n st = (inr r, st') -> error r = Some e ->
  cache_miss env (generate_cache_key q n [("method", "expansion")]) st /\
  cache st' = cache st /\ (ticks st <= ticks st')%nat.
Proof.
  intros Hok H. unfold query_expansion in H. cbv zeta in H.
  eapply cached_error; [exact Hok | | | exact H].
  - apply ok_bind. intros qs. apply ok_bind. intros [all th]. apply ok_store_ret. reflexivity.
  - apply rk_bind; [apply keeps_generate_expanded_queries | intros qs].
    apply rk_bind; [apply keeps_retrieve_each | intros [all th]].
    apply rk_total. apply total_bind; [apply total_cache_store | intros; apply total_ret].
Qed.

Lemma hyde_retrieval_error (q : string) (n : Z) (st st' : St) (r : result) (e : string) :
  cache_ok st -> hyde_retrieval env q n st = (inr r, st') -> error r = Some e ->
  cache_miss env (generate_cache_key q n [("method", "hyde")]) st /\
  cache st' = cache st /\ (ticks st <= ticks st')%nat.
Proof.
  intros Hok H. unfold hyde_retrieval in H. cbv zeta in H.
  eapply cached_error; [exact Hok | | | exact H].
  - apply ok_bind. intros d. apply ok_bind. intros items. apply ok_store_ret. reflexivity.
  - apply rk_bind; [apply keeps_generate_hypothetical_document | intros d].
    apply rk_bind; [apply keeps_retrieve | intros items].
    apply rk_total. apply total_bind; [apply total_cache_store | intros; apply total_ret].
Qed.

(** In the model the strategies that [multi_strategy_retrieval] calls catch
    their own exceptions, so its [try] body never raises and, from a cache of
    successes, it never returns an error-shaped result. *)
Lemma multi_strategy_no_error (q : string) (n : Z) (st st' : St) (r : result) :
  cache_ok st -> multi_strategy_retrieval env q n st = (inr r, st') -> error r = None.
Proof.
  intros Hok H. unfold multi_strategy_retrieval in H. cbv zeta in H.
  eapply cached_total_ok; [exact Hok | | | exact H].
  - apply ok_bind; intros r1. apply ok_bind; intros r2. apply ok_bind; intros r3.
    apply ok_store_ret. reflexivity.
  - apply total_bind; [intro st0; apply standard_query_total | intros r1].
    apply total_bind; [apply total_query_expansion | intros r2].
    apply total_bind; [apply total_hyde_retrieval | intros r3].
    apply total_bind; [apply total_cache_store | intros; apply total_ret].
Qed.

End Cached.

(** C10. From a cache that holds only successes, every strategy leaves a cache
    that holds only successes (the error-shaped results of the [except]
    branches and the mock fallback are never stored). When [query_expansion]
    or [hyde_retrieval] returns an error-shaped result, the call was a cache
    miss and the cache is left exactly as it was, so with a clock that does
    not go back the next call with the same key misses again and recomputes.
    The same holds of [multi_strategy_retrieval], which in the model cannot
    return an error-shaped result at all ([multi_strategy_no_error]). *)
Theorem cache_holds_only_successes (env : Env) (q : string) (n : Z) (st : St) :
  cache_ok st ->
  cache_ok (snd (standard_query env q n st)) /\
  cache_ok (snd (query_expansion env q n st)) /\
  cache_ok (snd (hyde_retrieval env q n st)) /\
  cache_ok (snd (multi_strategy_retrieval env q n st)) /\
  cache_ok (snd (relationship_retrieval env q n st)) /\
  (forall r st' e, query_expansion env q n st = (inr r, st') -> error r = Some e ->
     let key := generate_cache_key q n [("method", "expansion")] in
     cache_miss env key st /\ cache st' = cache st /\
     (clock_mono env -> fst (cache_lookup env key st') = inr None)) /\
  (forall r st' e, hyde_retrieval env q n st = (inr r, st') -> error r = Some e ->
     let key := generate_cache_key q n [("method", "hyde")] in
     cache_miss env key st /\ cache st' = cache st /\
     (clock_mono env -> fst (cache_lookup env key st') = inr None)) /\
  (forall r st' e, multi_strategy_retrieval env q n st = (inr r, st') -> error r = Some e ->
     let key := generate_cache_key q n [("method", "multi")] in
     cache_miss env key st /\ cache st' = cache st /\
     (clock_mono env -> fst (cache_lookup env key st') = inr None)).
Proof.
  intro Hok.
  split; [exact (pres_standard_query env q n st Hok) |].
  split; [exact (pres_query_expansion env q n st Hok) |].
  split; [exact (pres_hyde_retrieval env q n st Hok) |].
  split; [exact (pres_multi_strategy_retrieval env q n st Hok) |].
  split; [exact (pres_relationship_retrieval env q n st Hok) |].
  split; [| split].
  - intros r st' e H He key.
    destruct (query_expansion_error env q n st st' r e Hok H He) as [Hm [Hc Ht]].
    split; [exact Hm | split; [exact Hc |]].
    intro Hmon. exact (cache_miss_later env key st st' Hmon Hm Hc Ht).
  - intros r st' e H He key.
    destruct (hyde_retrieval_error env q n st st' r e Hok H He) as [Hm [Hc Ht]].
    split; [exact Hm | split; [exact Hc |]].
    intro Hmon. exact (cache_miss_later env key st st' Hmon Hm Hc Ht).
  - intros r st' e H He. rewrite (multi_strategy_no_error env q n st st' r Hok H) in He.
    discriminate.
Qed.

(** With the knowledge base and the model down, [query_expansion] on an empty
    cache returns its error-shaped result and stores nothing. *)
Lemma cache_holds_only_successes_witness :
  cache_ok st_empty /\
  (exists r st', query_expansion (env_down 0) "tables" 5 st_empty = (inr r, st') /\
     error r = Some "ReadTimeoutError" /\ contexts r = [] /\ cache st' = []) /\
  (cache_ok (snd (query_expansion (env_down 0) "tables" 5 st_empty)) /\
   forall r st' e, query_expansion (env_down 0) "tables" 5 st_empty = (inr r, st') ->
     error r = Some e -> cache st' = cache st_empty).
Proof.
  assert (H0 : cache_ok st_empty) by (intros k e []).
  split; [exact H0 |]. split.
  - eexists; eexists. split; [vm_compute; reflexivity | vm_compute; repeat split].
  - destruct (cache_holds_only_successes (env_down 0) "tables" 5 st_empty H0)
      as [_ [Hqe [_ [_ [_ [Herr _]]]]]].
    split; [exact Hqe |].
    intros r st' e H He. exact (proj1 (proj2 (Herr r st' e H He))).
Defined.

(* ================================================================== *)
(** * Further properties of the correction loop *)

Module FeedbackProps.
Import Feedback.

(** The row written by [UPDATE query_feedback SET ProcessingStatus = 'reviewed',
    ProcessedAt = NOW(), ProcessedBy = 'system']. *)
Definition marked_row (now : Z) (f : feedback_row) : feedback_row :=
  {| Id := Id f; KnowledgeBaseId := KnowledgeBaseId f; CompanyId := CompanyId f;
     ProcessingStatus := "reviewed"; FeedbackType := FeedbackType f;
     CreatedAt := CreatedAt f; OriginalQuery := OriginalQuery f;
     OriginalResponse := OriginalResponse f;
     CorrectedResponse := CorrectedResponse f; FeedbackNotes := FeedbackNotes f;
     ProcessedBy := Some "system"; ProcessedAt := Some now |}.

(** [n, n+1, ..., n+k-1]: the [lastrowid]s of [k] consecutive inserts. *)
Definition consecutive (n : Z) (k : nat) : list Z := map (fun i => n + Z.of_nat i) (seq 0 k).

(** Characters of a string and disjointness of two character sets. *)
Definition chars_disjoint (u v : string) : bool :=
  forallb (fun c => negb (existsb (Ascii.eqb c) (list_ascii_of_string v))) (list_ascii_of_string u).

Lemma mark_reviewed_feedback (now fid : Z) (db : DB) :
  query_feedback (mark_reviewed now fid db) =
  map (fun f => if Id f =? fid then marked_row now f else f) (query_feedback db).
Proof. reflexivity. Qed.

Lemma consecutive_cons (n : Z) (k : nat) :
  consecutive n (S k) = n :: consecutive (n + 1) k.
Proof.
  unfold consecutive. simpl. f_equal; [lia |].
  rewrite <- seq_shift, map_map. apply map_ext. intro i. lia.
Qed.

(** The rows whose [INSERT] ran, and the rows marked reviewed, from iteration [i]. *)
Fixpoint inserted_rows (rn : run) (i : nat) (pending : list feedback_row) : list feedback_row :=
  match pending with
  | [] => []
  | f :: rest =>
      match outcome rn i with
      | InsertRaises _ => inserted_rows rn (S i) rest
      | _ => f :: inserted_rows rn (S i) rest
      end
  end.

Fixpoint reviewed_rows (rn : run) (i : nat) (pending : list feedback_row) : list feedback_row :=
  match pending with
  | [] => []
  | f :: rest =>
      match outcome rn i with
      | RowOk => f :: reviewed_rows rn (S i) rest
      | _ => reviewed_rows rn (S i) rest
      end
  end.

(** [f'] is [f] marked reviewed at one of the run's [NOW()]s when the id of
    [f] is among [fids], and [f] itself otherwise. *)
Definition marked_by (rn : run) (fids : list Z) (f f' : feedback_row) : Prop :=
  if existsb (Z.eqb (Id f)) fids then exists j, f' = marked_row (sql_now rn j) f else f' = f.

Lemma marked_by_nil_refl (rn : run) (l : list feedback_row) : Forall2 (marked_by rn []) l l.
Proof. induction l as [| f l IH]; constructor; [reflexivity | exact IH]. Qed.

Lemma marked_by_trans (rn : run) (a b : list Z) (f f1 f2 : feedback_row) :
  marked_by rn a f f1 -> marked_by rn b f1 f2 -> marked_by rn (app a b) f f2.
Proof.
  unfold marked_by. rewrite existsb_app. destruct (existsb (Z.eqb (Id f)) a); intros H1 H2.
  - destruct H1 as [j ->]. change (Id (marked_row (sql_now rn j) f)) with (Id f) in H2.
    cbn [orb]. destruct (existsb (Z.eqb (Id f)) b).
    + destruct H2 as [j' ->]. exists j'. reflexivity.
    + subst f2. exists j. reflexivity.
  - subst f1. exact H2.
Qed.

Lemma marked_by_trans_list (rn : run) (a b : list Z) (l1 l2 l3 : list feedback_row) :
  Forall2 (marked_by rn a) l1 l2 -> Forall2 (marked_by rn b) l2 l3 ->
  Forall2 (marked_by rn (app a b)) l1 l3.
Proof.
  intro H12. revert l3. induction H12 as [| f1 f2 l1 l2 H H12 IH]; intros l3 H23;
    inversion H23 as [| g2 f3 l2' l3' H' H23']; subst; constructor; [| exact (IH _ H23')].
  exact (marked_by_trans rn a b _ _ _ H H').
Qed.

Lemma mark_reviewed_marked_by (rn : run) (j : nat) (fid : Z) (db : DB) :
  Forall2 (marked_by rn [fid]) (query_feedback db) (query_feedback (mark_reviewed (sql_now rn j) fid db)).
Proof.
  rewrite mark_reviewed_feedback. induction (query_feedback db) as [| f l IH]; constructor; [| exact IH].
  unfold marked_by. cbn [existsb]. rewrite orb_false_r.
  destruct (Id f =? fid); [exists j |]; reflexivity.
Qed.

Lemma hdrel_lt_of_forall (n : Z) (l : list Z) : Forall (fun x => n + 1 <= x) l -> HdRel Z.lt n l.
Proof. intro H. destruct H as [| x l Hx _]; constructor. lia. Qed.

(** The training row [create_training_data] writes for [f] with id [id]. *)
Definition training_row_of (id : Z) (f : feedback_row) : training_row :=
  {| td_Id := id; td_FeedbackId := Id f; td_CompanyId := CompanyId f;
     td_KnowledgeBaseId := KnowledgeBaseId f;
     QueryPattern := generalize_query_pattern (OriginalQuery f);
     CorrectResponse := CorrectedResponse f; IncorrectResponse := OriginalResponse f;
     ImprovementNotes := FeedbackNotes f |}.

Ltac inserted_row_case IH Hpos :=
  match goal with
  | |- context [process_each ?rn (S ?i) ?rest ?i' ?d] =>
      assert (Hpos1 : 0 < next_training_id d) by (simpl; lia);
      specialize (IH (S i) i' d Hpos1); destruct (process_each rn (S i) rest i' d) as [ids' db']
  end.

Lemma process_each_spec (rn : run) (i : nat) (pending : list feedback_row) (ids : list Z) (db : DB) :
  0 < next_training_id db ->
  let (ids', db') := process_each rn i pending ids db in
  (exists T, training_data db' = app (training_data db) T /\ ids' = app ids (map td_Id T) /\
     map td_FeedbackId T = map Id (inserted_rows rn i pending) /\
     map QueryPattern T =
       map (fun f => generalize_query_pattern (OriginalQuery f)) (inserted_rows rn i pending) /\
     map CorrectResponse T = map CorrectedResponse (inserted_rows rn i pending) /\
     Sorted Z.lt (map td_Id T) /\ Forall (fun x => next_training_id db <= x) (map td_Id T) /\
     ((forall j, (j < List.length pending)%nat -> outcome rn (i + j) = RowOk) ->
      map td_Id T = consecutive (next_training_id db) (List.length pending))) /\
  Forall2 (marked_by rn (map Id (reviewed_rows rn i pending))) (query_feedback db) (query_feedback db') /\
  kb_improvement_log db' = kb_improvement_log db /\ next_log_id db' = next_log_id db.
Proof.
  revert i ids db. induction pending as [| f rest IH]; intros i ids db Hpos.
  - cbn [process_each inserted_rows reviewed_rows map]. split.
    + exists []. cbn [map app]. split; [symmetry; apply app_nil_r |].
      split; [symmetry; apply app_nil_r |]. split; [reflexivity |]. split; [reflexivity |].
      split; [reflexivity |]. split; [constructor |]. split; [constructor |]. intros _; reflexivity.
    + split; [apply marked_by_nil_refl | split; reflexivity].
  - cbn [process_each inserted_rows reviewed_rows].
    destruct (outcome rn i) as [| k |] eqn:Ho.
    + cbn [create_training_data].
      replace (next_training_id db =? 0) with false by (symmetry; apply Z.eqb_neq; lia).
      inserted_row_case IH Hpos.
      destruct IH as [[T [HT [Hids [HTf [HTq [HTc [Hs [Hge Hcons]]]]]]]] [Hq [Hl Hn]]].
      cbn [mark_reviewed training_data next_training_id kb_improvement_log next_log_id]
        in HT, Hge, Hcons, Hl, Hn.
      split; [| split; [| split; assumption]].
      * exists (training_row_of (next_training_id db) f :: T).
        cbn [map td_Id td_FeedbackId QueryPattern CorrectResponse training_row_of].
        split; [rewrite HT, <- app_assoc; reflexivity |].
        split; [rewrite Hids, <- app_assoc; reflexivity |].
        split; [rewrite HTf; reflexivity |]. split; [rewrite HTq; reflexivity |].
        split; [rewrite HTc; reflexivity |].
        split; [constructor; [exact Hs | apply hdrel_lt_of_forall; exact Hge] |].
        split; [constructor; [lia | eapply Forall_impl; [| exact Hge]; intros x Hx; cbv beta in *; lia] |].
        intro Hall. cbn [List.length]. rewrite consecutive_cons. f_equal. apply Hcons.
        intros j Hj. replace (S i + j)%nat with (i + S j)%nat by lia. apply Hall. simpl. lia.
      * change (map Id (f :: reviewed_rows rn (S i) rest)) with
          (app [Id f] (map Id (reviewed_rows rn (S i) rest))).
        eapply marked_by_trans_list; [apply (mark_reviewed_marked_by rn i (Id f)) | exact Hq].
    + inserted_row_case IH Hpos.
      destruct IH as [[T [HT [Hids [HTf [HTq [HTc [Hs [Hge Hcons]]]]]]]] [Hq [Hl Hn]]].
      cbn [skip_training_ids training_data next_training_id kb_improvement_log next_log_id]
        in HT, Hge, Hcons, Hl, Hn.
      split; [| split; [exact Hq | split; assumption]].
      exists T. split; [exact HT |]. split; [exact Hids |]. split; [exact HTf |].
      split; [exact HTq |]. split; [exact HTc |]. split; [exact Hs |].
      split; [eapply Forall_impl; [| exact Hge]; intros x Hx; cbv beta in *; lia |].
      intro Hall. exfalso. specialize (Hall 0%nat ltac:(simpl; lia)).
      rewrite Nat.add_0_r, Ho in Hall. discriminate Hall.
    + cbn [create_training_data].
      replace (next_training_id db =? 0) with false by (symmetry; apply Z.eqb_neq; lia).
      inserted_row_case IH Hpos.
      destruct IH as [[T [HT [Hids [HTf [HTq [HTc [Hs [Hge Hcons]]]]]]]] [Hq [Hl Hn]]].
      cbn [training_data next_training_id kb_improvement_log next_log_id] in HT, Hge, Hcons, Hl, Hn.
      split; [| split; [exact Hq | split; assumption]].
      exists (training_row_of (next_training_id db) f :: T).
      cbn [map td_Id td_FeedbackId QueryPattern CorrectResponse training_row_of].
      split; [rewrite HT, <- app_assoc; reflexivity |].
      split; [rewrite Hids, <- app_assoc; reflexivity |].
      split; [rewrite HTf; reflexivity |]. split; [rewrite HTq; reflexivity |].
      split; [rewrite HTc; reflexivity |].
      split; [constructor; [exact Hs | apply hdrel_lt_of_forall; exact Hge] |].
      split; [constructor; [lia | eapply Forall_impl; [| exact Hge]; intros x Hx; cbv beta in *; lia] |].
      intro Hall. exfalso. specialize (Hall 0%nat ltac:(simpl; lia)).
      rewrite Nat.add_0_r, Ho in Hall. discriminate Hall.
Qed.

(** [generate_corrected_documentation] finds a document for every id whose row exists. *)
Lemma corrected_documentation_nonempty (ids : list Z) (db : DB) (d : training_row) :
  In d (training_data db) -> In (td_Id d) ids -> generate_corrected_documentation ids db <> [].
Proof.
  intros Hd Hi. unfold generate_corrected_documentation.
  intro H. apply map_eq_nil in H.
  assert (Hin : In d (filter (fun d => existsb (Z.eqb (td_Id d)) ids) (training_data db))).
  { apply filter_In. split; [exact Hd |]. apply existsb_exists. exists (td_Id d).
    split; [exact Hi | apply Z.eqb_refl]. }
  rewrite H in Hin. exact Hin.
Qed.

(** ** Substring facts for [str.replace] *)

Lemma prefix_empty (s : string) : prefix "" s = true.
Proof. destruct s; reflexivity. Qed.

Lemma disjoint_cons (c : ascii) (u v : string) :
  chars_disjoint (String c u) v = true ->
  existsb (Ascii.eqb c) (list_ascii_of_string v) = false /\ chars_disjoint u v = true.
Proof.
  unfold chars_disjoint. simpl. intro H. apply andb_prop in H. destruct H as [H1 H2].
  split; [apply negb_true_iff; exact H1 | exact H2].
Qed.

Lemma existsb_first (c : ascii) (v : string) :
  existsb (Ascii.eqb c) (list_ascii_of_string (String c v)) = true.
Proof. simpl. rewrite Ascii.eqb_refl. reflexivity. Qed.

Lemma disjoint_tail (u : string) (c : ascii) (a : string) :
  chars_disjoint u (String c a) = true -> chars_disjoint u a = true.
Proof.
  unfold chars_disjoint. intro H. apply forallb_forall. intros x Hx.
  pose proof (proj1 (forallb_forall _ _) H x Hx) as Hx'. simpl in Hx'.
  destruct (Ascii.eqb x c); [discriminate | exact Hx'].
Qed.

Lemma disjoint_head (c0 : ascii) (u : string) (c : ascii) (a : string) :
  chars_disjoint (String c0 u) (String c a) = true -> c0 <> c.
Proof.
  unfold chars_disjoint. simpl. intros H E. subst c0. rewrite Ascii.eqb_refl in H.
  discriminate H.
Qed.

(** An occurrence of [u] cannot start inside a string none of whose characters
    is a character of [u]. *)
Lemma contains_app_disjoint (u a b : string) :
  u <> "" -> chars_disjoint u a = true -> Py.contains u (a ++ b) = Py.contains u b.
Proof.
  intros Hu Hd. induction a as [| c a IH]; [reflexivity |].
  pose proof (disjoint_tail _ _ _ Hd) as Hd'.
  destruct u as [| c0 u']; [congruence |].
  pose proof (disjoint_head _ _ _ _ Hd) as Hne.
  simpl. destruct (ascii_dec c0 c) as [E | _]; [contradiction |].
  exact (IH Hd').
Qed.

Lemma str_length_app (a b : string) :
  String.length (a ++ b) = (String.length a + String.length b)%nat.
Proof. induction a as [| c a IH]; simpl; [reflexivity | rewrite IH; reflexivity]. Qed.

Lemma substring_all (s : string) (m : nat) :
  (String.length s <= m)%nat -> substring 0 m s = s.
Proof.
  revert m. induction s as [| c s IH]; intros m Hm; simpl; [destruct m; reflexivity |].
  destruct m as [| m]; simpl in Hm; [lia |]. rewrite IH; [reflexivity | lia].
Qed.

Lemma prefix_split_ge (u s : string) (m : nat) :
  prefix u s = true -> (String.length s <= m)%nat -> s = u ++ substring (String.length u) m s.
Proof.
  revert s m. induction u as [| c u IH]; intros s m H Hm.
  - simpl. symmetry. apply substring_all. exact Hm.
  - destruct s as [| c' s]; [discriminate |]. simpl in H.
    destruct (ascii_dec c c') as [E | E]; [subst c' | discriminate].
    simpl. f_equal. apply IH; [exact H | simpl in Hm; lia].
Qed.

(** A prefix match splits the string: [s = u + s[len(u):]]. *)
Lemma prefix_split (u s : string) :
  prefix u s = true -> s = u ++ substring (String.length u) (String.length s) s.
Proof. intro H. apply prefix_split_ge; [exact H | lia]. Qed.

Lemma contains_app_r (t a b : string) :
  Py.contains t b = true -> Py.contains t (a ++ b) = true.
Proof.
  intro H. induction a as [| c a IH]; [exact H |].
  simpl. rewrite IH. match goal with |- (if ?b then true else true) = true => destruct b; reflexivity end.
Qed.

Lemma contains_nil (t : string) : t <> "" -> Py.contains t "" = false.
Proof. intro H. destruct t; [congruence | reflexivity]. Qed.

Lemma contains_cons (t : string) (c : ascii) (s : string) :
  Py.contains t (String c s) = if prefix t (String c s) then true else Py.contains t s.
Proof. reflexivity. Qed.

Lemma contains_cons_false (t : string) (c : ascii) (s : string) :
  Py.contains t (String c s) = false -> prefix t (String c s) = false /\ Py.contains t s = false.
Proof.
  intro H. change (Py.contains t (String c s)) with
    (if prefix t (String c s) then true else Py.contains t s) in H.
  destruct (prefix t (String c s)); [discriminate | auto].
Qed.

Lemma replace_step_skip (f : nat) (old new : string) (c : ascii) (rest : string) :
  prefix old (String c rest) = false ->
  Py.replace_fuel (S f) old new (String c rest) = String c (Py.replace_fuel f old new rest).
Proof. intro P. cbn [Py.replace_fuel]. rewrite P. reflexivity. Qed.

(** A prefix of [s.replace(old, new)] made of characters foreign to a
    non-empty [new] is a prefix of [s]: it ends before the first replacement. *)
Lemma replace_prefix_back (f : nat) (old new s u : string) :
  new <> "" -> chars_disjoint u new = true ->
  prefix u (Py.replace_fuel f old new s) = true -> prefix u s = true.
Proof.
  revert s u. induction f as [| f IH]; intros s u Hn Hd H; [exact H |].
  simpl in H. destruct (prefix old s) eqn:P.
  - destruct u as [| c0 u']; [apply prefix_empty |].
    destruct new as [| cn new']; [congruence |].
    pose proof (disjoint_head _ _ _ _ Hd) as Hne. simpl in H.
    destruct (ascii_dec c0 cn); [contradiction | discriminate].
  - destruct s as [| c rest]; [exact H |].
    destruct u as [| c0 u']; [apply prefix_empty |].
    simpl in H |- *. destruct (ascii_dec c0 c) as [E | E]; [| discriminate].
    apply (IH rest u' Hn); [exact (proj2 (disjoint_cons _ _ _ Hd)) | exact H].
Qed.

(** [s.replace(old, new)] leaves no occurrence of [old] when [new] is non-empty
    and shares no character with [old]. *)
Lemma replace_removes (f : nat) (old new s : string) :
  old <> "" -> new <> "" -> chars_disjoint old new = true -> (String.length s < f)%nat ->
  Py.contains old (Py.replace_fuel f old new s) = false.
Proof.
  revert s. induction f as [| f IH]; intros s Ho Hn Hd Hl; [lia |].
  destruct (prefix old s) eqn:P.
  - cbn [Py.replace_fuel]. rewrite P. rewrite (contains_app_disjoint _ _ _ Ho Hd). apply IH; try assumption.
    pose proof (prefix_split _ _ P) as Hs.
    assert (Hlen : String.length s = (String.length old +
              String.length (substring (String.length old) (String.length s) s))%nat)
      by (rewrite Hs at 1; rewrite str_length_app; reflexivity).
    assert (Hol : String.length old <> 0%nat) by (destruct old; simpl; [congruence | lia]). lia.
  - destruct s as [| c rest]; [cbn [Py.replace_fuel]; rewrite P; apply contains_nil; exact Ho |].
    rewrite (replace_step_skip _ _ _ _ _ P), contains_cons.
    destruct (prefix old (String c (Py.replace_fuel f old new rest))) eqn:Q.
    + exfalso. rewrite <- (replace_step_skip f old new c rest P) in Q.
      apply replace_prefix_back in Q; [congruence | exact Hn | exact Hd].
    + apply IH; try assumption. simpl in Hl. lia.
Qed.

(** [s.replace(old, new)] creates no occurrence of a [t] that shares no
    character with a non-empty [new]. *)
Lemma replace_keeps_absent (f : nat) (old new s t : string) :
  t <> "" -> new <> "" -> chars_disjoint t new = true -> Py.contains t s = false ->
  Py.contains t (Py.replace_fuel f old new s) = false.
Proof.
  revert s. induction f as [| f IH]; intros s Ht Hn Hd Hs; [exact Hs |].
  destruct (prefix old s) eqn:P.
  - cbn [Py.replace_fuel]. rewrite P. rewrite (contains_app_disjoint _ _ _ Ht Hd). apply IH; try assumption.
    destruct (Py.contains t (substring (String.length old) (String.length s) s)) eqn:C;
      [| reflexivity].
    rewrite (prefix_split _ _ P), (contains_app_r _ old _ C) in Hs. discriminate.
  - destruct s as [| c rest]; [cbn [Py.replace_fuel]; rewrite P; exact Hs |].
    destruct (contains_cons_false _ _ _ Hs) as [Hp Hr].
    rewrite (replace_step_skip _ _ _ _ _ P), contains_cons.
    destruct (prefix t (String c (Py.replace_fuel f old new rest))) eqn:Q.
    + exfalso. rewrite <- (replace_step_skip f old new c rest P) in Q.
      apply replace_prefix_back in Q; [congruence | exact Hn | exact Hd].
    + apply IH; assumption.
Qed.

(** The replacement table has non-empty terms and placeholders, and no
    placeholder shares a character with any term. *)
Definition replacements_ok (reps : list (string * string)) : bool :=
  forallb (fun tp => negb (String.eqb (fst tp) "") && negb (String.eqb (snd tp) "") &&
                     forallb (fun tp' => chars_disjoint (fst tp) (snd tp')) reps) reps.

Lemma common_replacements_ok : replacements_ok common_replacements = true.
Proof. vm_compute. reflexivity. Qed.

Lemma fold_replace_keeps (t : string) (reps : list (string * string)) (s : string) :
  t <> "" -> (forall tp, In tp reps -> snd tp <> "" /\ chars_disjoint t (snd tp) = true) ->
  Py.contains t s = false ->
  Py.contains t (fold_left (fun pattern tp => Py.replace (fst tp) (snd tp) pattern) reps s) = false.
Proof.
  revert s. induction reps as [| [o n] rest IH]; intros s Ht Hr Hs; [exact Hs |].
  simpl. apply IH; [exact Ht | intros tp Htp; apply Hr; right; exact Htp |].
  destruct (Hr (o, n) (or_introl eq_refl)) as [Hn Hd].
  apply replace_keeps_absent; assumption.
Qed.

Lemma fold_replace_removes (reps all : list (string * string)) (s : string) (t p : string) :
  (forall tp, In tp all -> fst tp <> "" /\ snd tp <> "" /\
     forall tp', In tp' all -> chars_disjoint (fst tp) (snd tp') = true) ->
  incl reps all -> In (t, p) reps ->
  Py.contains t (fold_left (fun pattern tp => Py.replace (fst tp) (snd tp) pattern) reps s) = false.
Proof.
  intros Hall. revert s. induction reps as [| [o n] rest IH]; intros s Hinc Hin; [destruct Hin |].
  simpl. destruct Hin as [E | Hin].
  - inversion E; subst o n. destruct (Hall (t, p) (Hinc _ (or_introl eq_refl))) as [Ht [Hp Hd]].
    apply fold_replace_keeps; [exact Ht | |].
    + intros tp Htp. split; [exact (proj1 (proj2 (Hall tp (Hinc _ (or_intror Htp))))) |].
      exact (Hd tp (Hinc _ (or_intror Htp))).
    + apply replace_removes; [exact Ht | exact Hp | exact (Hd (t, p) (Hinc _ (or_introl eq_refl))) |].
      simpl. lia.
  - apply IH; [intros x Hx; apply Hinc; right; exact Hx | exact Hin].
Qed.

Lemma consecutive_length (n : Z) (k : nat) : List.length (consecutive n k) = k.
Proof. unfold consecutive. rewrite length_map, length_seq. reflexivity. Qed.

(** [generalize_query_pattern] never leaves one of the five entity phrases of
    its table in the pattern: each is replaced by its placeholder, and no
    later replacement (upper-case placeholders) can form one again. *)
Theorem generalize_query_pattern_no_entity_terms (original_query term placeholder : string) :
  In (term, placeholder) common_replacements ->
  Py.contains term (generalize_query_pattern original_query) = false.
Proof.
  intro Hin. unfold generalize_query_pattern.
  apply (fold_replace_removes common_replacements common_replacements _ term placeholder);
    [| apply incl_refl | exact Hin].
  intros tp Htp.
  pose proof (proj1 (forallb_forall _ _) common_replacements_ok tp Htp) as Hx.
  apply andb_prop in Hx. destruct Hx as [Hx H3]. apply andb_prop in Hx. destruct Hx as [H1 H2].
  split; [intro E; rewrite E in H1; discriminate H1 |].
  split; [intro E; rewrite E in H2; discriminate H2 |].
  intros tp' Htp'. exact (proj1 (forallb_forall _ _) H3 tp' Htp').
Qed.

Lemma generalize_query_pattern_no_entity_terms_witness :
  In ("sales orders", "[SALES_ENTITY]") common_replacements /\
  Py.contains "sales orders" (generalize_query_pattern "Total SALES ORDERS per customer") = false.
Proof.
  split; [simpl; auto |].
  apply (generalize_query_pattern_no_entity_terms _ _ "[SALES_ENTITY]"). simpl; auto.
Defined.

Lemma inserted_rows_length (rn : run) (i : nat) (l : list feedback_row) :
  (List.length (inserted_rows rn i l) <= List.length l)%nat.
Proof.
  revert i. induction l as [| f l IH]; intro i; cbn [inserted_rows List.length]; [lia |].
  destruct (outcome rn i); cbn [List.length]; specialize (IH (S i)); lia.
Qed.

Lemma rows_all_ok (rn : run) (i : nat) (l : list feedback_row) :
  (forall j, (j < List.length l)%nat -> outcome rn (i + j) = RowOk) ->
  inserted_rows rn i l = l /\ reviewed_rows rn i l = l.
Proof.
  revert i. induction l as [| f l IH]; intros i Hall; [split; reflexivity |].
  cbn [inserted_rows reviewed_rows].
  assert (Ho : outcome rn i = RowOk).
  { specialize (Hall 0%nat ltac:(simpl; lia)). rewrite Nat.add_0_r in Hall. exact Hall. }
  rewrite Ho. destruct (IH (S i)) as [H1 H2].
  - intros j Hj. replace (S i + j)%nat with (i + S j)%nat by lia. apply Hall. simpl. lia.
  - rewrite H1, H2. split; reflexivity.
Qed.


(** The improvement-log row a run with training rows [ids] ends with. *)
Definition final_log_row (kb_id : string) (company_id : Z) (rn : run) (lid : Z) (ids : list Z) : log_row :=
  {| log_Id := lid; log_KnowledgeBaseId := kb_id; log_CompanyId := company_id;
     ImprovementType := "content_update";
     Description := "Processed " ++ Py.str_Z (Z.of_nat (List.length ids)) ++ " user corrections";
     TrainingDataIds := ids; ImplementationMethod := "ingestion_job"; Status := "in_progress";
     IngestionJobId := Some ("job-" ++ Py.str_Z lid ++ "-" ++ Py.str_Z (job_now rn)) |}.

Lemma process_pending_spec (kb_id : string) (company_id : Z) (rn : run) (db : DB) :
  select_pending kb_id company_id db <> [] ->
  0 < next_training_id db ->
  (forall l, In l (kb_improvement_log db) -> log_Id l <> next_log_id db) ->
  let pending := select_pending kb_id company_id db in
  let inserted := inserted_rows rn 0 pending in
  let (r, db') := process_pending_feedback kb_id company_id rn db in
  exists T,
    status r = "success" /\ processed r = Z.of_nat (List.length inserted) /\
    training_data_ids r = Some (map td_Id T) /\
    training_data db' = app (training_data db) T /\
    map td_FeedbackId T = map Id inserted /\
    map QueryPattern T = map (fun f => generalize_query_pattern (OriginalQuery f)) inserted /\
    map CorrectResponse T = map CorrectedResponse inserted /\
    Sorted Z.lt (map td_Id T) /\ Forall (fun x => next_training_id db <= x) (map td_Id T) /\
    ((forall j, (j < List.length pending)%nat -> outcome rn j = RowOk) ->
     map td_Id T = consecutive (next_training_id db) (List.length pending)) /\
    Forall2 (marked_by rn (map Id (reviewed_rows rn 0 pending))) (query_feedback db) (query_feedback db') /\
    kb_improvement_log db' = app (kb_improvement_log db)
      (match T with
       | [] => []
       | _ => [final_log_row kb_id company_id rn (next_log_id db) (map td_Id T)]
       end).
Proof.
  intros Hne Hpos Hfresh. cbv zeta. unfold process_pending_feedback.
  destruct (select_pending kb_id company_id db) as [| f0 rest] eqn:Hsel; [congruence |].
  pose proof (process_each_spec rn 0 (f0 :: rest) [] db Hpos) as Hspec.
  destruct (process_each rn 0 (f0 :: rest) [] db) as [tids db1].
  destruct Hspec as [[T [HT [Hids [HTf [HTq [HTc [Hs [Hge Hcons]]]]]]]] [Hq [Hl Hn]]].
  cbn [app] in Hids. subst tids.
  assert (Hlen : List.length T = List.length (inserted_rows rn 0 (f0 :: rest))).
  { rewrite <- (length_map td_FeedbackId T), HTf, length_map. reflexivity. }
  exists T. cbv beta iota zeta.
  destruct T as [| d0 T'].
  - cbn [map]. split; [reflexivity |]. split; [cbn [processed]; rewrite <- Hlen; reflexivity |].
    split; [reflexivity |]. split; [exact HT |]. split; [exact HTf |]. split; [exact HTq |].
    split; [exact HTc |]. split; [exact Hs |]. split; [exact Hge |].
    split; [exact Hcons |]. split; [exact Hq |]. rewrite Hl. symmetry. apply app_nil_r.
  - cbn [map].
    match goal with
    | |- context [generate_corrected_documentation ?i ?d] =>
        destruct (generate_corrected_documentation i d) as [| doc docs] eqn:Hdoc
    end.
    + exfalso. refine (corrected_documentation_nonempty _ _ d0 _ _ Hdoc).
      * simpl. rewrite HT. apply in_or_app. right. left. reflexivity.
      * left. reflexivity.
    + split; [reflexivity |].
      split; [cbn [processed]; rewrite <- Hlen; cbn [List.length map]; rewrite length_map; reflexivity |].
      split; [reflexivity |].
      split; [exact HT |]. split; [exact HTf |]. split; [exact HTq |].
      split; [exact HTc |]. split; [exact Hs |]. split; [exact Hge |].
      split; [exact Hcons |]. split; [exact Hq |].
      unfold set_log_in_progress, insert_log. cbn [Feedback.kb_improvement_log Feedback.next_log_id].
      rewrite Hl, Hn, map_app. f_equal.
      * rewrite <- (map_id (kb_improvement_log db)) at 2. apply map_ext_in. intros l Hin.
        replace (log_Id l =? next_log_id db) with false; [reflexivity |].
        symmetry. apply Z.eqb_neq. exact (Hfresh l Hin).
      * cbn [map log_Id]. rewrite Z.eqb_refl. reflexivity.
Qed.


Definition pending_row : feedback_row :=
  {| Id := 4; KnowledgeBaseId := "KB-DB"; CompanyId := 7;
     ProcessingStatus := "pending"; FeedbackType := "correction";
     CreatedAt := 5; OriginalQuery := "list customers";
     OriginalResponse := "SELECT 1"; CorrectedResponse := "SELECT * FROM customer";
     FeedbackNotes := ""; ProcessedBy := None; ProcessedAt := None |}.

Definition pending_row2 : feedback_row :=
  {| Id := 6; KnowledgeBaseId := "KB-DB"; CompanyId := 7;
     ProcessingStatus := "pending"; FeedbackType := "correction";
     CreatedAt := 8; OriginalQuery := "count orders";
     OriginalResponse := "SELECT 2"; CorrectedResponse := "SELECT COUNT(*) FROM orders";
     FeedbackNotes := "use COUNT"; ProcessedBy := None; ProcessedAt := None |}.

Definition db_pending : DB :=
  {| query_feedback := [pending_row2; pending_row]; training_data := [];
     kb_improvement_log := []; next_training_id := 9; next_log_id := 3 |}.



(** A run with pending corrections in which every statement succeeds (with a
    positive first [lastrowid] and a fresh improvement-log id) creates one
    training row per pending correction, in [CreatedAt] order and with
    consecutive ids, marks exactly the rows with those feedback ids as
    reviewed by [system], and appends one improvement-log row that ends
    [in_progress] with the ingestion job id. *)
Theorem process_pending_success (kb_id : string) (company_id : Z) (rn : run) (db : DB) :
  select_pending kb_id company_id db <> [] ->
  0 < next_training_id db ->
  (forall l, In l (kb_improvement_log db) -> log_Id l <> next_log_id db) ->
  (forall j, (j < List.length (select_pending kb_id company_id db))%nat -> outcome rn j = RowOk) ->
  let pending := select_pending kb_id company_id db in
  let ids := consecutive (next_training_id db) (List.length pending) in
  let (r, db') := process_pending_feedback kb_id company_id rn db in
  status r = "success" /\ processed r = Z.of_nat (List.length pending) /\
  training_data_ids r = Some ids /\
  (exists T, training_data db' = app (training_data db) T /\ map td_Id T = ids /\
     map td_FeedbackId T = map Id pending /\
     map QueryPattern T = map (fun f => generalize_query_pattern (OriginalQuery f)) pending /\
     map CorrectResponse T = map CorrectedResponse pending) /\
  Forall2 (marked_by rn (map Id pending)) (query_feedback db) (query_feedback db') /\
  kb_improvement_log db' = app (kb_improvement_log db)
    [final_log_row kb_id company_id rn (next_log_id db) ids].
Proof.
  intros Hne Hpos Hfresh Hall. cbv zeta.
  pose proof (process_pending_spec kb_id company_id rn db Hne Hpos Hfresh) as H. cbv zeta in H.
  destruct (rows_all_ok rn 0 (select_pending kb_id company_id db) Hall) as [Hi Hr].
  rewrite Hi, Hr in H.
  destruct (process_pending_feedback kb_id company_id rn db) as [r db'].
  destruct H as [T [H1 [H2 [H3 [H4 [H5 [H6 [H7 [_ [_ [H10 [H11 H12]]]]]]]]]]]].
  specialize (H10 Hall).
  split; [exact H1 |]. split; [exact H2 |]. split; [rewrite H3, H10; reflexivity |].
  split; [exists T; rewrite <- H10; split; [exact H4 |]; split; [reflexivity |]; split; [exact H5 |]; split; [exact H6 | exact H7] |].
  split; [exact H11 |].
  rewrite H12, <- H10. destruct T as [| d T'].
  - exfalso. apply Hne. destruct (select_pending kb_id company_id db); [reflexivity | discriminate H5].
  - reflexivity.
Qed.

Definition run_ok : run :=
  {| outcome := fun _ => RowOk; sql_now := fun i => 100 + Z.of_nat i; job_now := 200 |}.

Lemma process_pending_success_witness :
  select_pending "KB-DB" 7 db_pending <> [] /\ 0 < next_training_id db_pending /\
  (forall l, In l (kb_improvement_log db_pending) -> log_Id l <> next_log_id db_pending) /\
  (forall j, (j < List.length (select_pending "KB-DB" 7 db_pending))%nat -> outcome run_ok j = RowOk) /\
  let pending := select_pending "KB-DB" 7 db_pending in
  let ids := consecutive (next_training_id db_pending) (List.length pending) in
  let (r, db') := process_pending_feedback "KB-DB" 7 run_ok db_pending in
  status r = "success" /\ processed r = Z.of_nat (List.length pending) /\
  training_data_ids r = Some ids /\
  (exists T, training_data db' = app (training_data db_pending) T /\ map td_Id T = ids /\
     map td_FeedbackId T = map Id pending /\
     map QueryPattern T = map (fun f => generalize_query_pattern (OriginalQuery f)) pending /\
     map CorrectResponse T = map CorrectedResponse pending) /\
  Forall2 (marked_by run_ok (map Id pending)) (query_feedback db_pending) (query_feedback db') /\
  kb_improvement_log db' = app (kb_improvement_log db_pending)
    [final_log_row "KB-DB" 7 run_ok (next_log_id db_pending) ids].
Proof.
  assert (H1 : select_pending "KB-DB" 7 db_pending <> []) by (vm_compute; discriminate).
  assert (H2 : 0 < next_training_id db_pending) by (vm_compute; reflexivity).
  assert (H3 : forall l, In l (kb_improvement_log db_pending) -> log_Id l <> next_log_id db_pending)
    by (intros l []).
  assert (H4 : forall j, (j < List.length (select_pending "KB-DB" 7 db_pending))%nat ->
                 outcome run_ok j = RowOk) by (intros; reflexivity).
  split; [exact H1 |]. split; [exact H2 |]. split; [exact H3 |]. split; [exact H4 |].
  exact (process_pending_success "KB-DB" 7 run_ok db_pending H1 H2 H3 H4).
Defined.

(** [f'] is [f], or [f] marked reviewed by [system] at some time. *)
Definition reviewed_or_same (f f' : feedback_row) : Prop :=
  f' = f \/ exists t, f' = marked_row t f.

Lemma reviewed_or_same_refl_list (l : list feedback_row) : Forall2 reviewed_or_same l l.
Proof. induction l as [| f l IH]; constructor; [left; reflexivity | exact IH]. Qed.

Lemma reviewed_or_same_trans_list (l1 l2 l3 : list feedback_row) :
  Forall2 reviewed_or_same l1 l2 -> Forall2 reviewed_or_same l2 l3 -> Forall2 reviewed_or_same l1 l3.
Proof.
  intro H12. revert l3. induction H12 as [| f1 f2 l1 l2 H H12 IH]; intros l3 H23;
    inversion H23 as [| g2 f3 l2' l3' H' H23']; subst; constructor; [| exact (IH _ H23')].
  destruct H as [-> | [t ->]]; [exact H' |].
  right. destruct H' as [-> | [t' ->]]; [exists t | exists t']; reflexivity.
Qed.

Lemma mark_reviewed_frame (now fid : Z) (db : DB) :
  Forall2 reviewed_or_same (query_feedback db) (query_feedback (mark_reviewed now fid db)).
Proof.
  rewrite mark_reviewed_feedback. induction (query_feedback db) as [| f l IH]; constructor; [| exact IH].
  destruct (Id f =? fid); [right; exists now | left]; reflexivity.
Qed.

Lemma process_each_frame (rn : run) (i : nat) (pending : list feedback_row) (ids : list Z) (db : DB) :
  let (ids', db') := process_each rn i pending ids db in
  Forall2 reviewed_or_same (query_feedback db) (query_feedback db') /\
  (exists T, training_data db' = app (training_data db) T) /\
  kb_improvement_log db' = kb_improvement_log db /\ next_log_id db' = next_log_id db.
Proof.
  revert i ids db. induction pending as [| f rest IH]; intros i ids db.
  - cbn [process_each]. split; [apply reviewed_or_same_refl_list |].
    split; [exists []; symmetry; apply app_nil_r | split; reflexivity].
  - cbn [process_each create_training_data].
    destruct (outcome rn i); [destruct (next_training_id db =? 0) | | destruct (next_training_id db =? 0)];
    match goal with
    | |- context [process_each rn (S i) rest ?i' ?d] =>
        specialize (IH (S i) i' d); destruct (process_each rn (S i) rest i' d) as [ids' db']
    end;
    destruct IH as [Hq [[T HT] [Hl Hn]]];
    cbn [query_feedback training_data kb_improvement_log next_log_id mark_reviewed skip_training_ids]
      in HT, Hl, Hn;
    (split; [| split; [eexists; rewrite HT; try rewrite <- app_assoc; reflexivity | split; assumption]]);
    try exact Hq.
    eapply reviewed_or_same_trans_list; [| exact Hq]. exact (mark_reviewed_frame _ (Id f) _).
Qed.

(** Whatever the rows and whatever the statements of the loop do (including
    raising), [process_pending_feedback] changes a feedback row only by
    marking it reviewed by [system] (rows keep their order and none is added
    or removed), only appends training rows, and adds at most one
    improvement-log row while keeping the ids of the existing ones. *)
Theorem process_pending_frame (kb_id : string) (company_id : Z) (rn : run) (db : DB) :
  let (r, db') := process_pending_feedback kb_id company_id rn db in
  Forall2 (fun f f' => f' = f \/ exists t, f' = marked_row t f) (query_feedback db) (query_feedback db') /\
  (exists T, training_data db' = app (training_data db) T) /\
  (exists L, map log_Id (kb_improvement_log db') = app (map log_Id (kb_improvement_log db)) L /\
     (List.length L <= 1)%nat).
Proof.
  unfold process_pending_feedback.
  destruct (select_pending kb_id company_id db) as [| f0 rest].
  - split; [apply reviewed_or_same_refl_list |].
    split; [exists []; symmetry; apply app_nil_r | exists []; split; [symmetry; apply app_nil_r | simpl; lia]].
  - pose proof (process_each_frame rn 0 (f0 :: rest) [] db) as Hf.
    destruct (process_each rn 0 (f0 :: rest) [] db) as [tids db1].
    destruct Hf as [Hq [[T HT] [Hl Hn]]]. cbv beta iota zeta.
    destruct tids as [| tid tids].
    + split; [exact Hq |]. split; [exists T; exact HT |].
      exists []. rewrite Hl. split; [symmetry; apply app_nil_r | simpl; lia].
    + match goal with
      | |- context [generate_corrected_documentation ?i ?d] =>
          destruct (generate_corrected_documentation i d)
      end.
      * split; [exact Hq |]. split; [exists T; exact HT |].
        exists [next_log_id db1]. cbn [insert_log kb_improvement_log].
        rewrite map_app, Hl. split; [reflexivity | simpl; lia].
      * split; [exact Hq |]. split; [exists T; exact HT |].
        exists [next_log_id db1]. cbn [set_log_in_progress insert_log kb_improvement_log].
        rewrite map_map, map_app, Hl. split; [| simpl; lia].
        f_equal.
        -- apply map_ext. intro lr. destruct (log_Id lr =? _); reflexivity.
        -- simpl. destruct (next_log_id db1 =? next_log_id db1); reflexivity.
Qed.

End FeedbackProps.

(* ================================================================== *)
(** * Properties of the strategies, of answer generation and of the endpoints *)

(** What the expanded queries are, given the model's answer to the
    expansion prompt at call [k]: the original query alone when the call
    raises, otherwise the original query or non-empty stripped lines of the
    answer. *)
Definition expansion_answer_lines (env : Env) (q : string) (k : nat) (qs : list string) : Prop :=
  match model_invoke env k (expansion_prompt q) with
  | inl _ => qs = [q]
  | inr text => forall x, In x qs ->
      x = q \/ (In x (map Py.strip (Py.split_char (ascii_of_nat 10) text)) /\ x <> "")
  end.

Section StrategyFacts.
Variable env : Env.

Lemma expanded_queries_spec (q : string) (st : St) :
  exists qs st', generate_expanded_queries env q st = (inr qs, st') /\ In q qs /\
    expansion_answer_lines env q (List.length (invoke_log st)) qs /\
    retrieve_log st' = retrieve_log st /\ cache st' = cache st /\
    invoke_log st' = app (invoke_log st) [expansion_prompt q].
Proof.
  cbv [generate_expanded_queries catch bind invoke_model ret expansion_answer_lines].
  destruct (model_invoke env (List.length (invoke_log st)) (expansion_prompt q)) as [e | text].
  - exists [q]; eexists. split; [reflexivity |]. cbn [retrieve_log cache invoke_log].
    split; [left; reflexivity |]. split; [reflexivity |].
    repeat split.
  - set (qs := filter _ _).
    assert (Hq : forall x, In x qs ->
                   In x (map Py.strip (Py.split_char (ascii_of_nat 10) text)) /\ x <> "").
    { intros x Hx. apply filter_In in Hx. destruct Hx as [Hl Hx]. split; [exact Hl |].
      intro E. rewrite E in Hx. discriminate Hx. }
    eexists; eexists. split; [reflexivity |]. cbn [retrieve_log cache invoke_log].
    destruct (existsb (String.eqb q) qs) eqn:E.
    + split; [apply existsb_exists in E; destruct E as [x [Hx Ex]];
              apply String.eqb_eq in Ex; subst x; exact Hx |].
      split; [intros x Hx; right; exact (Hq x Hx) |]. repeat split.
    + split; [apply in_or_app; right; left; reflexivity |].
      split; [intros x Hx; apply in_app_or in Hx;
              destruct Hx as [Hx | [<- | []]]; [right; exact (Hq x Hx) | left; reflexivity] |].
      repeat split.
Qed.

Lemma expanded_queries_value (q : string) (st st1 : St) :
  invoke_log st1 = invoke_log st ->
  fst (generate_expanded_queries env q st1) = fst (generate_expanded_queries env q st).
Proof.
  intro H. cbv [generate_expanded_queries catch bind invoke_model ret]. rewrite H.
  destruct (model_invoke env _ _); reflexivity.
Qed.

Lemma cache_store_logs (key : string) (r : result) (st : St) :
  retrieve_log (snd (cache_store env key r st)) = retrieve_log st /\
  invoke_log (snd (cache_store env key r st)) = invoke_log st.
Proof. split; reflexivity. Qed.

End StrategyFacts.

(** On a cache miss with a reachable knowledge base, [query_expansion] makes
    one [retrieve] call per expanded query, in order and each asking for
    [num_results] results; the expanded queries always include the original
    query text, and every other one is a non-empty stripped line of the
    model's answer to the expansion prompt (the original text alone when the
    model call fails). *)
Theorem query_expansion_retrieves_each (env : Env) (q : string) (n : Z) (st : St) :
  cache_miss env (generate_cache_key q n [("method", "expansion")]) st ->
  (forall j t m, exists items, kb_retrieve env j t m = inr items) ->
  exists qs, fst (generate_expanded_queries env q st) = inr qs /\ In q qs /\
    match model_invoke env (List.length (invoke_log st)) (expansion_prompt q) with
    | inl _ => qs = [q]
    | inr text => forall x, In x qs ->
        x = q \/ (In x (map Py.strip (Py.split_char (ascii_of_nat 10) text)) /\ x <> "")
    end /\
    retrieve_log (snd (query_expansion env q n st)) = app (retrieve_log st) (map (fun x => (x, n)) qs).
Proof.
  intros Hmiss Hup.
  destruct (cache_lookup_miss env _ st Hmiss) as [st1 [Hl [Hc [Hr Hi]]]].
  destruct (expanded_queries_spec env q st1) as [qs [st2 [Hg [Hin [Hne [Hr2 [Hc2 Hi2]]]]]]].
  exists qs. rewrite <- (expanded_queries_value env q st st1 Hi), Hg.
  split; [reflexivity |]. split; [exact Hin |]. split; [unfold expansion_answer_lines in Hne; rewrite <- Hi; exact Hne |].
  unfold query_expansion. cbv [bind catch]. rewrite Hl, Hg.
  match goal with
  | |- context [retrieve_each env 0 qs n [] ?th st2] =>
      destruct (retrieve_each_log env 0 qs n [] th st2) as [k [Hk [Hlog Hok]]];
      destruct (Hok Hup) as [Ek [v Hv]];
      destruct (retrieve_each env 0 qs n [] th st2) as [[e | [all th']] st3] eqn:Hre
  end.
  - discriminate Hv.
  - cbn [snd] in Hlog. subst k. cbv [cache_store bind time_time ret]. cbn [retrieve_log snd].
    rewrite Hlog, Hr2, Hr, firstn_all2; [reflexivity |]. rewrite length_map. apply le_n.
Qed.

Lemma query_expansion_retrieves_each_witness :
  cache_miss (env_up 0) (generate_cache_key "tables" 5 [("method", "expansion")]) st_empty /\
  (forall j t m, exists items, kb_retrieve (env_up 0) j t m = inr items) /\
  exists qs, fst (generate_expanded_queries (env_up 0) "tables" st_empty) = inr qs /\ In "tables" qs /\
    match model_invoke (env_up 0) (List.length (invoke_log st_empty)) (expansion_prompt "tables") with
    | inl _ => qs = ["tables"]
    | inr text => forall x, In x qs ->
        x = "tables" \/ (In x (map Py.strip (Py.split_char (ascii_of_nat 10) text)) /\ x <> "")
    end /\
    retrieve_log (snd (query_expansion (env_up 0) "tables" 5 st_empty)) =
      app (retrieve_log st_empty) (map (fun x => (x, 5)) qs).
Proof.
  assert (H1 : cache_miss (env_up 0) (generate_cache_key "tables" 5 [("method", "expansion")]) st_empty)
    by (left; reflexivity).
  assert (H2 : forall j t m, exists items, kb_retrieve (env_up 0) j t m = inr items)
    by (intros j t m; exists []; reflexivity).
  split; [exact H1 |]. split; [exact H2 |].
  exact (query_expansion_retrieves_each (env_up 0) "tables" 5 st_empty H1 H2).
Defined.

(** On a cache miss [hyde_retrieval] makes exactly one [retrieve] call, for
    [num_results] results, with the stripped hypothetical document, or with
    the original query text when the model call fails. *)
Theorem hyde_retrieval_retrieves_document (env : Env) (q : string) (n : Z) (st : St) :
  cache_miss env (generate_cache_key q n [("method", "hyde")]) st ->
  retrieve_log (snd (hyde_retrieval env q n st)) = app (retrieve_log st)
    [(match model_invoke env (List.length (invoke_log st)) (hyde_prompt q) with
      | inl _ => q
      | inr text => Py.strip text
      end, n)].
Proof.
  intro Hmiss. destruct (cache_lookup_miss env _ st Hmiss) as [st1 [Hl [Hc [Hr Hi]]]].
  unfold hyde_retrieval. cbv [bind catch]. rewrite Hl.
  cbv [generate_hypothetical_document catch bind invoke_model ret retrieve]. rewrite Hi.
  destruct (model_invoke env (List.length (invoke_log st)) (hyde_prompt q));
    cbn [retrieve_log invoke_log];
    (destruct (kb_retrieve env _ _ _); cbv [cache_store bind time_time ret];
     cbn [snd retrieve_log]; rewrite Hr; reflexivity).
Qed.

Lemma hyde_retrieval_retrieves_document_witness :
  cache_miss (env_down 0) (generate_cache_key "tables" 5 [("method", "hyde")]) st_empty /\
  retrieve_log (snd (hyde_retrieval (env_down 0) "tables" 5 st_empty)) = [("tables", 5)].
Proof.
  assert (H : cache_miss (env_down 0) (generate_cache_key "tables" 5 [("method", "hyde")]) st_empty)
    by (left; reflexivity).
  split; [exact H |].
  exact (hyde_retrieval_retrieves_document (env_down 0) "tables" 5 st_empty H).
Defined.

Section DownFacts.
Variable env : Env.

Lemma cache_lookup_empty (key : string) (st : St) :
  cache st = [] -> cache_lookup env key st = (inr None, st).
Proof. intro Hc. unfold cache_lookup. rewrite Hc. reflexivity. Qed.

Lemma standard_query_down (q : string) (n : Z) (st : St) (e : string) :
  cache st = [] -> kb_retrieve env (List.length (retrieve_log st)) q n = inl e ->
  exists st', standard_query env q n st = (inr (mock_result q e), st') /\ cache st' = [].
Proof.
  intros Hc He. unfold standard_query. cbv [bind catch]. rewrite (cache_lookup_empty _ _ Hc).
  cbv [retrieve ret]. rewrite He. eexists. split; [reflexivity | exact Hc].
Qed.

Lemma query_expansion_down (q : string) (n : Z) (st : St) :
  cache st = [] -> (forall j t m, exists e, kb_retrieve env j t m = inl e) ->
  exists e st', query_expansion env q n st = (inr (error_result q "query_expansion" e), st') /\
    cache st' = [].
Proof.
  intros Hc Hdown. unfold query_expansion. cbv [bind catch]. rewrite (cache_lookup_empty _ _ Hc).
  destruct (expanded_queries_spec env q st) as [qs [st2 [Hg [Hin [_ [_ [Hc2 _]]]]]]].
  rewrite Hg. destruct qs as [| q0 rest]; [destruct Hin |].
  cbn [retrieve_each]. cbv [bind retrieve].
  destruct (Hdown (List.length (retrieve_log st2)) q0 n) as [e He]. rewrite He.
  exists e. eexists. split; [reflexivity |]. cbn [cache]. rewrite Hc2. exact Hc.
Qed.

Lemma hyde_retrieval_down (q : string) (n : Z) (st : St) :
  cache st = [] -> (forall j t m, exists e, kb_retrieve env j t m = inl e) ->
  exists e st', hyde_retrieval env q n st = (inr (error_result q "hyde" e), st') /\ cache st' = [].
Proof.
  intros Hc Hdown. unfold hyde_retrieval. cbv [bind catch]. rewrite (cache_lookup_empty _ _ Hc).
  cbv [generate_hypothetical_document catch bind invoke_model ret retrieve].
  destruct (model_invoke env (List.length (invoke_log st)) (hyde_prompt q));
    cbn [retrieve_log cache];
    (match goal with
     | |- context [kb_retrieve env ?j ?t ?m] =>
         destruct (Hdown j t m) as [e He]; rewrite He
     end; exists e; eexists; split; [reflexivity | exact Hc]).
Qed.

End DownFacts.

Lemma dedup_sort_take_single (n : Z) (c : context) :
  dedup_sort_take n [c] = Py.list_take n [c].
Proof.
  unfold dedup_sort_take, unique_contexts. cbn [fold_left].
  unfold dedup_step. cbn [dict_get dict_set map snd sort_desc fold_right insert_desc].
  reflexivity.
Qed.

(** When the knowledge base fails on every call, [multi_strategy_retrieval]
    started on an empty cache still returns a successful [multi_strategy]
    result, whose only context is the mock fallback context of
    [standard_query], cut to [num_results] as [all_contexts[:num_results]]
    does (query expansion and HyDE return their error results without
    contexts). That result is stored in the cache, and any later call with
    the same query and [num_results], in any state whose cache still holds
    that entry while it is fresh, returns it again without calling the
    knowledge base. *)
Theorem multi_strategy_caches_mock_fallback (env : Env) (q : string) (n : Z) (st : St) :
  cache st = [] -> (forall j t m, exists e, kb_retrieve env j t m = inl e) ->
  exists r st' e t, multi_strategy_retrieval env q n st = (inr r, st') /\
    retrieval_method r = "multi_strategy" /\ error r = None /\
    contexts r = Py.list_take n (contexts (mock_result q e)) /\
    dict_get (generate_cache_key q n [("method", "multi")]) (cache st') =
      Some {| e_result := r; timestamp := t |} /\
    (forall st'', dict_get (generate_cache_key q n [("method", "multi")]) (cache st'') =
                    Some {| e_result := r; timestamp := t |} ->
       (clock env (ticks st'') - t < cache_ttl)%Q ->
       multi_strategy_retrieval env q n st'' = (inr r, tick st'')).
Proof.
  intros Hc Hdown.
  destruct (Hdown (List.length (retrieve_log st)) q (Z.max 2 (n / 3))) as [e1 He1].
  destruct (standard_query_down env q (Z.max 2 (n / 3)) st e1 Hc He1) as [sta [Hs Hca]].
  destruct (query_expansion_down env q (Z.max 2 (n / 3)) sta Hca Hdown) as [e2 [stb [Hq Hcb]]].
  destruct (hyde_retrieval_down env q (Z.max 2 (n / 3)) stb Hcb Hdown) as [e3 [stc [Hh Hcc]]].
  assert (Hm : exists r st', multi_strategy_retrieval env q n st = (inr r, st') /\
             retrieval_method r = "multi_strategy" /\ error r = None /\
             contexts r = Py.list_take n (contexts (mock_result q e1)) /\
             dict_get (generate_cache_key q n [("method", "multi")]) (cache st') =
               Some {| e_result := r; timestamp := clock env (ticks stc) |}).
  { unfold multi_strategy_retrieval. cbv [bind catch]. rewrite (cache_lookup_empty env _ _ Hc).
    rewrite Hs, Hq, Hh. cbv [cache_store bind time_time ret].
    eexists; eexists. split; [reflexivity |].
    split; [reflexivity |]. split; [reflexivity |].
    split; [cbn [contexts error_result mock_result app]; apply dedup_sort_take_single |].
    cbn [cache]. rewrite Hcc. cbn [dict_set dict_get]. rewrite String.eqb_refl. reflexivity. }
  destruct Hm as [r [st' [Hrun [Hmeth [Herr [Hctx Hget]]]]]].
  exists r, st', e1, (clock env (ticks stc)).
  split; [exact Hrun |]. split; [exact Hmeth |]. split; [exact Herr |]. split; [exact Hctx |].
  split; [exact Hget |].
  intros st'' Hget'' Hlt. unfold multi_strategy_retrieval. cbv [bind].
  rewrite (cache_lookup_hit env _ st'' {| e_result := r; timestamp := clock env (ticks stc) |});
    [reflexivity | exact Hget'' | exact Hlt].
Qed.

Lemma multi_strategy_caches_mock_fallback_witness :
  cache st_empty = [] /\ (forall j t m, exists e, kb_retrieve (env_down 0) j t m = inl e) /\
  exists r st' e t, multi_strategy_retrieval (env_down 0) "tables" 0 st_empty = (inr r, st') /\
    retrieval_method r = "multi_strategy" /\ error r = None /\
    contexts r = Py.list_take 0 (contexts (mock_result "tables" e)) /\
    dict_get (generate_cache_key "tables" 0 [("method", "multi")]) (cache st') =
      Some {| e_result := r; timestamp := t |} /\
    (forall st'', dict_get (generate_cache_key "tables" 0 [("method", "multi")]) (cache st'') =
                    Some {| e_result := r; timestamp := t |} ->
       (clock (env_down 0) (ticks st'') - t < cache_ttl)%Q ->
       multi_strategy_retrieval (env_down 0) "tables" 0 st'' = (inr r, tick st'')).
Proof.
  assert (H1 : cache st_empty = []) by reflexivity.
  assert (H2 : forall j t m, exists e, kb_retrieve (env_down 0) j t m = inl e)
    by (intros j t m; eexists; reflexivity).
  split; [exact H1 |]. split; [exact H2 |].
  exact (multi_strategy_caches_mock_fallback (env_down 0) "tables" 0 st_empty H1 H2).
Defined.

(** ** Answer generation and the single-knowledge-base endpoints *)

Section AnswerFacts.
Variable env : Env.

Lemma generate_answer_total (q : string) (texts : list string) (st : St) :
  exists a st', generate_answer_from_contexts env q texts st = (inr a, st').
Proof.
  destruct texts as [| first rest]; [do 2 eexists; reflexivity |].
  cbv [generate_answer_from_contexts catch bind invoke_model ret].
  destruct (model_invoke env _ _); do 2 eexists; reflexivity.
Qed.

Lemma multi_strategy_total (q : string) (n : Z) (st : St) :
  exists r st', multi_strategy_retrieval env q n st = (inr r, st').
Proof.
  unfold multi_strategy_retrieval. cbv [bind catch].
  destruct (cache_lookup_total env (generate_cache_key q n [("method", "multi")]) st)
    as [o [st1 [Hl _]]].
  rewrite Hl. destruct o as [r |]; [do 2 eexists; reflexivity |].
  destruct (standard_query_total env q (Z.max 2 (n / 3)) st1) as [r1 [st2 H1]]. rewrite H1.
  destruct (total_query_expansion env q (Z.max 2 (n / 3)) st2) as [r2 [st3 H2]]. rewrite H2.
  destruct (total_hyde_retrieval env q (Z.max 2 (n / 3)) st3) as [r3 [st4 H3]]. rewrite H3.
  cbv [cache_store bind time_time ret]. do 2 eexists; reflexivity.
Qed.

Lemma multi_strategy_miss_bound (q : string) (n : Z) (st st' : St) (r : result) :
  0 <= n -> cache_miss env (generate_cache_key q n [("method", "multi")]) st ->
  multi_strategy_retrieval env q n st = (inr r, st') ->
  (List.length (contexts r) <= Z.to_nat n)%nat.
Proof.
  intros Hn Hmiss. destruct (cache_lookup_miss env _ st Hmiss) as [st1 [Hl _]].
  unfold multi_strategy_retrieval. cbv [bind catch]. rewrite Hl.
  destruct (standard_query_total env q (Z.max 2 (n / 3)) st1) as [r1 [st2 H1]]. rewrite H1.
  destruct (total_query_expansion env q (Z.max 2 (n / 3)) st2) as [r2 [st3 H2]]. rewrite H2.
  destruct (total_hyde_retrieval env q (Z.max 2 (n / 3)) st3) as [r3 [st4 H3]]. rewrite H3.
  cbv [cache_store bind time_time ret]. intro H. injection H as <- _. cbn [contexts].
  unfold dedup_sort_take, Py.list_take. replace (0 <=? n) with true by (symmetry; apply Z.leb_le; lia).
  apply firstn_le_length.
Qed.

Lemma advanced_rag_query_total (q : string) (b : bool) (st : St) :
  exists r st', advanced_rag_query env q b st = (inr r, st') /\ (b = false -> r_thinking r = "").
Proof.
  unfold advanced_rag_query. cbv [bind].
  destruct (multi_strategy_total q 8 st) as [r0 [st1 Hm]]. rewrite Hm.
  match goal with
  | |- context [generate_answer_from_contexts env q ?t st1] =>
      destruct (generate_answer_total q t st1) as [a [st2 Ha]]; rewrite Ha
  end.
  cbv [ret]. do 2 eexists. split; [reflexivity |]. intro Hb. subst b. reflexivity.
Qed.

End AnswerFacts.

Lemma length_filter_le {A} (f : A -> bool) (l : list A) :
  (List.length (filter f l) <= List.length l)%nat.
Proof. induction l as [| x l IH]; simpl; [lia | destruct (f x); simpl; lia]. Qed.

(** [generate_answer_from_contexts] never raises and never changes the cache
    or calls the knowledge base. Without contexts it answers the fixed
    "couldn't find" message without calling the model; otherwise it calls the
    model exactly once, with a prompt built from the first ten contexts only
    and no user-corrections section (the corrections lookup always yields
    the empty string). *)
Theorem generate_answer_from_contexts_calls (env : Env) (q : string) (texts : list string) (st : St) :
  exists a st', generate_answer_from_contexts env q texts st = (inr a, st') /\
    cache st' = cache st /\ retrieve_log st' = retrieve_log st /\
    (texts = [] -> a = no_context_answer q /\ invoke_log st' = invoke_log st) /\
    (texts <> [] -> invoke_log st' =
       app (invoke_log st) [answer_prompt q (Py.join (nl ++ nl ++ "---" ++ nl ++ nl) (firstn 10 texts))]).
Proof.
  destruct texts as [| first rest].
  - exists (no_context_answer q), st. split; [reflexivity |].
    split; [reflexivity |]. split; [reflexivity |].
    split; [intros _; split; reflexivity | intro H; congruence].
  - cbv [generate_answer_from_contexts catch bind invoke_model ret get_relevant_corrections].
    cbn [String.eqb].
    destruct (model_invoke env _ _); do 2 eexists; (split; [reflexivity |]);
      cbn [cache retrieve_log invoke_log];
      (split; [reflexivity |]); (split; [reflexivity |]);
      (split; [intro H; discriminate H | intros _; reflexivity]).
Qed.

(** [advanced_rag_query] never raises, whatever the knowledge base and the
    model do; with [use_extended_thinking = False] its thinking is empty, and
    when its [multi_strategy_retrieval] call is a cache miss it returns at
    most eight retrieved contexts (the default [num_results = 8]). *)
Theorem advanced_rag_query_shape (env : Env) (q : string) (b : bool) (st : St) :
  exists r st', advanced_rag_query env q b st = (inr r, st') /\
    (b = false -> r_thinking r = "") /\
    (cache_miss env (generate_cache_key q 8 [("method", "multi")]) st ->
     (List.length (r_retrieved_contexts r) <= 8)%nat).
Proof.
  unfold advanced_rag_query. cbv [bind].
  destruct (multi_strategy_total env q 8 st) as [r0 [st1 Hm]]. rewrite Hm.
  match goal with
  | |- context [generate_answer_from_contexts env q ?t st1] =>
      destruct (generate_answer_total env q t st1) as [a [st2 Ha]]; rewrite Ha
  end.
  cbv [ret]. do 2 eexists. split; [reflexivity |].
  split; [intro Hb; subst b; reflexivity |].
  intro Hmiss. cbn [r_retrieved_contexts]. rewrite length_map.
  etransitivity; [apply length_filter_le |].
  exact (multi_strategy_miss_bound env q 8 st st1 r0 ltac:(lia) Hmiss Hm).
Qed.

(** The single-knowledge-base path of [/query] never answers HTTP 500 once
    the client exists, even with the knowledge base and the model down; it
    never includes thinking when [extended_thinking] is off and never
    includes contexts when [include_contexts] is off. *)
Theorem query_knowledge_base_total (env : Env) (q : string) (et it ic : bool) (st : St) :
  exists resp st', query_knowledge_base env q et it ic st = (inr resp, st') /\
    (et = false -> resp_thinking resp = None) /\
    (ic = false -> resp_contexts resp = None).
Proof.
  unfold query_knowledge_base. cbv [bind].
  destruct (advanced_rag_query_total env q et st) as [r [st1 [Hr Hth]]]. rewrite Hr.
  cbv [ret]. do 2 eexists. split; [reflexivity |]. split.
  - intro He. cbn [response_of resp_thinking]. rewrite (Hth He). cbn [String.eqb].
    destruct it; reflexivity.
  - intro Hi. subst ic. cbn [response_of resp_contexts]. destruct (r_retrieved_contexts r); reflexivity.
Qed.

(** When the knowledge base fails on every call and the relationship cache
    entry is missing or stale, [/relationship] still answers successfully,
    with an empty answer, no thinking, and an empty context list. *)
Theorem analyze_table_relationships_kb_down (env : Env) (t : string) (it ic : bool) (st : St) :
  cache_miss env (generate_cache_key t 10 [("method", "relationship")]) st ->
  (forall j q m, exists e, kb_retrieve env j q m = inl e) ->
  exists st', analyze_table_relationships env t it ic st =
    (inr {| resp_answer := ""; resp_thinking := None;
            resp_contexts := if ic then Some [] else None |}, st').
Proof.
  intros Hmiss Hdown. destruct (cache_lookup_miss env _ st Hmiss) as [st1 [Hl _]].
  unfold analyze_table_relationships, query_database_relationships, relationship_retrieval.
  cbv [bind catch]. rewrite Hl.
  cbv [relationship_queries retrieve_each retrieve bind].
  match goal with
  | |- context [kb_retrieve env (List.length (retrieve_log st1)) ?q ?m] =>
      destruct (Hdown (List.length (retrieve_log st1)) q m) as [e He]; rewrite He
  end.
  cbv [ret]. eexists. reflexivity.
Qed.

Lemma analyze_table_relationships_kb_down_witness :
  cache_miss (env_down 0) (generate_cache_key "orders" 10 [("method", "relationship")]) st_empty /\
  (forall j q m, exists e, kb_retrieve (env_down 0) j q m = inl e) /\
  exists st', analyze_table_relationships (env_down 0) "orders" true true st_empty =
    (inr {| resp_answer := ""; resp_thinking := None; resp_contexts := Some [] |}, st').
Proof.
  assert (H1 : cache_miss (env_down 0) (generate_cache_key "orders" 10 [("method", "relationship")])
                 st_empty) by (left; reflexivity).
  assert (H2 : forall j q m, exists e, kb_retrieve (env_down 0) j q m = inl e)
    by (intros j q m; eexists; reflexivity).
  split; [exact H1 |]. split; [exact H2 |].
  exact (analyze_table_relationships_kb_down (env_down 0) "orders" true true st_empty H1 H2).
Defined.

(** ** Routed and merged multi-knowledge-base queries *)

Lemma truthy_target_some (ty : string) (o : option string) (t : QueryTarget) :
  truthy_target ty o = Some t -> secondary t = Some false.
Proof.
  unfold truthy_target. destruct o as [id |]; [| discriminate].
  destruct (String.eqb id ""); [discriminate |]. intro H. injection H as <-. reflexivity.
Qed.

Lemma classify_single (query_text : string) (kbs : ApplicationKBs) (mode : string) :
  classify_query_and_get_targets query_text kbs mode = [] \/
  exists t, classify_query_and_get_targets query_text kbs mode = [t] /\ secondary t = Some false.
Proof.
  unfold classify_query_and_get_targets.
  destruct (String.eqb mode "database"); [right; eexists; split; reflexivity |].
  destruct (String.eqb mode "support").
  { destruct (truthy_target "support" _) as [t |] eqn:E; [| left; reflexivity].
    right. exists t. split; [reflexivity | exact (truthy_target_some _ _ _ E)]. }
  destruct (String.eqb mode "documentation").
  { destruct (truthy_target "documentation" _) as [t |] eqn:E; [| left; reflexivity].
    right. exists t. split; [reflexivity | exact (truthy_target_some _ _ _ E)]. }
  cbv zeta. destruct (_ && _); [right; eexists; split; reflexivity |].
  destruct (_ <? _).
  - destruct (truthy_target "support" _) as [t |] eqn:E.
    + right. exists t. split; [reflexivity | exact (truthy_target_some _ _ _ E)].
    + destruct (truthy_target "documentation" _) as [t |] eqn:E'.
      * right. exists t. split; [reflexivity | exact (truthy_target_some _ _ _ E')].
      * right. eexists; split; reflexivity.
  - destruct (truthy_target "documentation" _) as [t |] eqn:E'.
    + right. exists t. split; [reflexivity | exact (truthy_target_some _ _ _ E')].
    + right. eexists; split; reflexivity.
Qed.

(** The router always yields at most one target, never a secondary one, so
    a [/query/multi] request routed by application never merges. With no
    target it fails with HTTP 500 and detail "400: No knowledge base targets
    available for this query"; with its single target, it fails with HTTP 500
    and detail "500: No knowledge bases could be queried" when that target is
    skipped, and otherwise answers with that knowledge base's answer, thinking
    and contexts, with no related-information section. *)
Theorem routed_multi_kb_single_answer (query_text : string) (kbs : ApplicationKBs) (mode : string)
    (query_kb : QueryTarget -> option rag_answer) (it ic : bool) :
  let targets := classify_query_and_get_targets query_text kbs mode in
  (targets = [] /\
   multi_kb_query query_kb it ic targets =
     inl (500, "400: No knowledge base targets available for this query")) \/
  (exists t, targets = [t] /\ secondary t = Some false /\
     match query_kb t with
     | None => multi_kb_query query_kb it ic targets =
                 inl (500, "500: No knowledge bases could be queried")
     | Some r => multi_kb_query query_kb it ic targets =
         inr {| resp_answer := r_answer r;
                resp_thinking := if it && negb (String.eqb (r_thinking r) "")
                                 then Some (r_thinking r) else None;
                resp_contexts := match r_retrieved_contexts r with
                                 | [] => None
                                 | cs => if ic then Some cs else None
                                 end |}
     end).
Proof.
  cbv zeta. destruct (classify_single query_text kbs mode) as [E | [t [E Hs]]]; rewrite E.
  - left. split; reflexivity.
  - right. exists t. split; [reflexivity |]. split; [exact Hs |].
    unfold multi_kb_query, multi_kb_query_try, collect_results. cbn [flat_map].
    destruct (query_kb t) as [r |]; reflexivity.
Qed.

Definition kbs_three : ApplicationKBs :=
  {| databaseKnowledgeBaseId := "KB-1"; supportKnowledgeBaseId := Some "KB-2";
     documentationKnowledgeBaseId := Some "KB-3" |}.

Definition answer_by_kb (t : QueryTarget) : option rag_answer :=
  Some {| r_answer := "answer of " ++ kbId t; r_thinking := ""; r_retrieved_contexts := [] |}.

Example routed_multi_kb_smart_support :
  multi_kb_query answer_by_kb true true
    (classify_query_and_get_targets "fix this error" kbs_three "smart") =
    inr {| resp_answer := "answer of KB-2"; resp_thinking := None; resp_contexts := None |}.
Proof. vm_compute. reflexivity. Qed.

Lemma filter_primary_nil (l : list kb_result) :
  forallb is_secondary l = true -> filter (fun r => negb (is_secondary r)) l = [].
Proof.
  induction l as [| r l IH]; [reflexivity |]. cbn [forallb filter].
  intro H. apply andb_prop in H. destruct H as [H1 H2]. rewrite H1. exact (IH H2).
Qed.

(** When every collected result is secondary, [multi_kb_query] answers with
    the first result's answer unchanged: no related-information section is
    appended. *)
Theorem multi_kb_all_secondary (query_kb : QueryTarget -> option rag_answer) (it ic : bool)
    (targets : list QueryTarget) (resp : APIResponse) :
  forallb is_secondary (collect_results query_kb targets) = true ->
  multi_kb_query query_kb it ic targets = inr resp ->
  exists r, hd_error (collect_results query_kb targets) = Some r /\ resp_answer resp = answer r.
Proof.
  intros Hsec H. unfold multi_kb_query, multi_kb_query_try in H.
  destruct targets as [| t0 ts]; [discriminate H |].
  destruct (collect_results query_kb (t0 :: ts)) as [| r rs] eqn:C; [discriminate H |].
  exists r. split; [reflexivity |].
  assert (Hm : merge_results (r :: rs) = Some r).
  { destruct rs as [| r1 rs]; [reflexivity |].
    unfold merge_results. rewrite (filter_primary_nil _ Hsec). reflexivity. }
  rewrite Hm in H. injection H as <-. reflexivity.
Qed.

Definition target_sec (id : string) : QueryTarget :=
  {| type := "documentation"; kbId := id; secondary := Some true |}.

Lemma multi_kb_all_secondary_witness :
  forallb is_secondary (collect_results answer_by_kb [target_sec "KB-3"; target_sec "KB-4"]) = true /\
  multi_kb_query answer_by_kb false false [target_sec "KB-3"; target_sec "KB-4"] =
    inr {| resp_answer := "answer of KB-3"; resp_thinking := None; resp_contexts := None |} /\
  exists r, hd_error (collect_results answer_by_kb [target_sec "KB-3"; target_sec "KB-4"]) = Some r /\
    resp_answer {| resp_answer := "answer of KB-3"; resp_thinking := None; resp_contexts := None |} =
      answer r.
Proof.
  assert (H1 : forallb is_secondary (collect_results answer_by_kb [target_sec "KB-3"; target_sec "KB-4"])
               = true) by (vm_compute; reflexivity).
  assert (H2 : multi_kb_query answer_by_kb false false [target_sec "KB-3"; target_sec "KB-4"] =
    inr {| resp_answer := "answer of KB-3"; resp_thinking := None; resp_contexts := None |})
    by (vm_compute; reflexivity).
  split; [exact H1 |]. split; [exact H2 |].
  exact (multi_kb_all_secondary answer_by_kb false false _ _ H1 H2).
Defined.

(** When every target is skipped (no client, or its query raised), a
    [/query/multi] request with targets fails: the [HTTPException(500, "No
    knowledge bases could be queried")] is caught by the outer handler and
    re-raised as HTTP 500 with detail "500: No knowledge bases could be
    queried". *)
Theorem multi_kb_all_skipped (query_kb : QueryTarget -> option rag_answer) (it ic : bool)
    (targets : list QueryTarget) :
  targets <> [] -> (forall t, In t targets -> query_kb t = None) ->
  multi_kb_query query_kb it ic targets = inl (500, "500: No knowledge bases could be queried").
Proof.
  intros Hne Hnone. unfold multi_kb_query, multi_kb_query_try.
  assert (C : collect_results query_kb targets = []).
  { unfold collect_results. clear Hne. induction targets as [| t ts IH]; [reflexivity |].
    cbn [flat_map]. rewrite (Hnone t (or_introl eq_refl)).
    apply IH. intros t' Ht'. apply Hnone. right. exact Ht'. }
  destruct targets as [| t0 ts]; [congruence |]. rewrite C. reflexivity.
Qed.

Lemma multi_kb_all_skipped_witness :
  [target_sec "KB-3"] <> [] /\
  (forall t, In t [target_sec "KB-3"] -> (fun _ : QueryTarget => @None rag_answer) t = None) /\
  multi_kb_query (fun _ => None) true true [target_sec "KB-3"] =
    inl (500, "500: No knowledge bases could be queried").
Proof.
  assert (H1 : [target_sec "KB-3"] <> []) by discriminate.
  assert (H2 : forall t, In t [target_sec "KB-3"] -> (fun _ : QueryTarget => @None rag_answer) t = None)
    by (intros; reflexivity).
  split; [exact H1 |]. split; [exact H2 |].
  exact (multi_kb_all_skipped (fun _ => None) true true _ H1 H2).
Defined.


(** ** Contexts built from retrieved items *)

Lemma prefix_app_self (s t : string) : prefix s (s ++ t) = true.
Proof.
  induction s as [| c s IH]; [destruct t; reflexivity |].
  cbn [append prefix]. destruct (Ascii.ascii_dec c c); [exact IH | congruence].
Qed.

(** A context built from a retrieved item has an empty [content_sample]
    exactly when its content is empty; otherwise the sample is the first 500
    characters of the content followed by "...", so it is at most 503
    characters long. *)
Theorem context_sample_bounds (from : option string) (it : item) :
  let c := context_of_item from it in
  (content_sample c = "" <-> content c = "") /\
  (String.length (content_sample c) <= 503)%nat /\
  prefix (Py.take 500 (content c)) (content_sample c) = true.
Proof.
  cbv zeta. unfold context_of_item. cbn [content content_sample].
  set (text := match item_text it with Some t => t | None => "" end).
  destruct (String.eqb text "") eqn:E.
  - apply String.eqb_eq in E. rewrite E. split; [split; reflexivity |].
    split; [simpl; lia | reflexivity].
  - apply String.eqb_neq in E. split; [split; [| intro H; contradiction] |].
    + intro H. apply (f_equal String.length) in H.
      rewrite FeedbackProps.str_length_app in H. simpl in H. lia.
    + split; [rewrite FeedbackProps.str_length_app, take_length;
              pose proof (Nat.le_min_l 500 (String.length text)); change (String.length "...") with 3%nat; lia |].
      apply prefix_app_self.
Qed.
